(** * csrgd: the PDF analysis route and its streaming client

    A shallow embedding of [app/api/process-pdfs/route.ts] (the server:
    [processFile] and [POST]) and of [app/page.tsx] (the client:
    [generateAnalysis] and what the component renders), with the properties
    of the streamed fragment protocol that the specification states.

    JavaScript strings are sequences of UTF-16 code units; they are modelled
    as [list N].  The external capabilities (file system, PDF loader, text
    splitter, LLM) are an oracle indexed by the number of external calls made
    so far, so that every resolve/reject pattern is covered. *)

From Stdlib Require Import List NArith Arith Bool Lia String Ascii.
From Stdlib Require Decimal DecimalString.
Import ListNotations.


(** ** JavaScript strings *)

Module JS.

Definition jsstring := list N.

(** An ASCII literal as code units. *)
Definition js (s : string) : jsstring :=
  map N_of_ascii (list_ascii_of_string s).

Definition nl : jsstring := [10%N].
Definition sp : jsstring := [32%N].

(** [`${n}`] for a non-negative integer. *)
Definition ofNat (n : nat) : jsstring :=
  js (DecimalString.NilZero.string_of_uint (Nat.to_uint n)).

Fixpoint units_eqb (a b : jsstring) : bool :=
  match a, b with
  | [], [] => true
  | x :: a', y :: b' => N.eqb x y && units_eqb a' b'
  | _, _ => false
  end.

(** A string is truthy when it is not empty. *)
Definition truthy (s : jsstring) : bool :=
  match s with [] => false | _ :: _ => true end.

(** [s.startsWith(p)] *)
Fixpoint startsWith (p s : jsstring) : bool :=
  match p, s with
  | [], _ => true
  | _ :: _, [] => false
  | x :: p', y :: s' => N.eqb x y && startsWith p' s'
  end.

(** [s.indexOf(m)]: position of the first occurrence, [None] for -1. *)
Fixpoint indexOf (m s : jsstring) : option nat :=
  if startsWith m s then Some 0
  else match s with
       | [] => None
       | _ :: s' => option_map S (indexOf m s')
       end.

(** [s.includes(m)] *)
Definition includes (m s : jsstring) : bool :=
  match indexOf m s with Some _ => true | None => false end.

(** [s.split(sep)]: the pieces between the successive non-overlapping
    occurrences of [sep], found from the left.  The fuel bounds the number of
    separators; [length s] is enough since a non-empty separator consumes at
    least one unit. *)
Fixpoint split_fuel (fuel : nat) (sep s : jsstring) : list jsstring :=
  match fuel with
  | 0 => [s]
  | S fuel' =>
      match indexOf sep s with
      | None => [s]
      | Some i => firstn i s :: split_fuel fuel' sep (skipn (i + List.length sep) s)
      end
  end.

Definition split (sep s : jsstring) : list jsstring :=
  match sep with
  | [] => map (fun c => [c]) s
  | _ :: _ => split_fuel (List.length s) sep s
  end.

(** ECMAScript WhiteSpace and LineTerminator code points, the ones
    [String.prototype.trim] strips. *)
Definition isWhiteSpace (c : N) : bool :=
  (N.eqb c 9 || N.eqb c 10 || N.eqb c 11 || N.eqb c 12 || N.eqb c 13
   || N.eqb c 32 || N.eqb c 160 || N.eqb c 5760
   || (N.leb 8192 c && N.leb c 8202)
   || N.eqb c 8232 || N.eqb c 8233 || N.eqb c 8239 || N.eqb c 8287
   || N.eqb c 12288 || N.eqb c 65279)%N%bool.

Fixpoint trimStart (s : jsstring) : jsstring :=
  match s with
  | [] => []
  | c :: s' => if isWhiteSpace c then trimStart s' else s
  end.

Definition trimEnd (s : jsstring) : jsstring := List.rev (trimStart (List.rev s)).

(** [s.trim()] *)
Definition trim (s : jsstring) : jsstring := trimStart (trimEnd s).

(** [a.join(sep)] *)
Fixpoint join (sep : jsstring) (a : list jsstring) : jsstring :=
  match a with
  | [] => []
  | [x] => x
  | x :: a' => x ++ sep ++ join sep a'
  end.

(** The text after the first occurrence of [m], when there is one. *)
Definition following (m s : jsstring) : option jsstring :=
  match indexOf m s with
  | Some i => Some (skipn (i + List.length m) s)
  | None => None
  end.

(** The text before the first occurrence of [m], all of it when there is
    none. *)
Definition upto (m s : jsstring) : jsstring :=
  match indexOf m s with
  | Some j => firstn j s
  | None => s
  end.

End JS.

Import JS.

(** ** Effects: a state and exception monad

    An [await]ed promise either resolves with a value or rejects; a rejection
    is a thrown [Error], of which the code only ever reads [message]. *)

Inductive result (A : Type) : Type :=
| Ok (a : A)
| Throw (msg : jsstring).

Arguments Ok {A} a.
Arguments Throw {A} msg.

Module Server.

(** *** Data of the route *)

Record File := { name : jsstring; content : list N }.

(** A langchain [Document]; only [pageContent] is read. *)
Record Document := { pageContent : jsstring }.

(** The calls that leave the process.  [Summarize] carries the loop index of
    the chunk it is called on, which the code does not pass along: it is kept
    in the log to state which chunks were summarized. *)
Inductive Call : Type :=
| ArrayBuffer (fileName : jsstring)
| Mkdtemp (prefix : jsstring)
| WriteFile (path : jsstring)
| Load (path : jsstring)
| SplitDocuments
| Summarize (index : nat) (paper_content : jsstring)
| Synthesize (summaries : jsstring)
| Rm (dir : jsstring).

Inductive Outcome : Type :=
| Fault (msg : jsstring)
| Done
| Text (t : jsstring)
| Docs (l : list Document).

(** What can be observed of a request, in order. *)
Inductive Event : Type :=
| Ext (c : Call) (o : Outcome)
| Opened
| Wrote (fragment : jsstring)
| Closed.

(** The environment.  Every capability takes the number of external calls
    made before it, so that the same call may resolve once and reject
    later. *)
Record World := {
  os_tmpdir : jsstring;
  path_join : jsstring -> jsstring -> jsstring;
  file_arrayBuffer : nat -> File -> result (list N);
  fs_mkdtemp : nat -> jsstring -> result jsstring;
  fs_writeFile : nat -> jsstring -> list N -> result unit;
  loader_load : nat -> jsstring -> result (list Document);
  splitter_splitDocuments : nat -> list Document -> result (list Document);
  summarizationChain_call : nat -> jsstring -> result jsstring;
  unifiedAnalysisChain_call : nat -> jsstring -> result jsstring;
  fs_rm : nat -> jsstring -> result unit
}.

(** [dirs] are the staging directories that exist (a directory stands for
    its contents too); [summaries] is the array of the same name, local to
    the streaming worker and captured by its loop body. *)
Record State := {
  clock : nat;
  dirs : list jsstring;
  summaries : list jsstring;
  trace : list Event
}.

Definition M (A : Type) : Type := State -> result A * State.

Definition ret {A} (a : A) : M A := fun s => (Ok a, s).

Definition throw {A} (msg : jsstring) : M A := fun s => (Throw msg, s).

Definition bind {A B} (m : M A) (k : A -> M B) : M B :=
  fun s =>
    match m s with
    | (Ok a, s1) => k a s1
    | (Throw e, s1) => (Throw e, s1)
    end.

Declare Scope js_scope.
Delimit Scope js_scope with js.
Notation "x <- m ;; k" := (bind m (fun x => k))
  (at level 100, m at next level, right associativity) : js_scope.
Notation "m ;; k" := (bind m (fun _ => k))
  (at level 100, right associativity) : js_scope.
Open Scope js_scope.

(** [try { body } finally { fin }]: [fin] always runs; when it throws, its
    exception replaces the outcome of [body]. *)
Definition try_finally {A} (body : M A) (fin : M unit) : M A :=
  fun s =>
    match body s with
    | (r, s1) =>
        match fin s1 with
        | (Ok _, s2) => (r, s2)
        | (Throw e, s2) => (Throw e, s2)
        end
    end.

(** [try { body } catch (e) { handler }] *)
Definition try_catch (body : M unit) (handler : jsstring -> M unit) : M unit :=
  fun s =>
    match body s with
    | (Ok u, s1) => (Ok u, s1)
    | (Throw e, s1) => handler e s1
    end.

Definition log (e : Event) : M unit :=
  fun s =>
    (Ok tt, {| clock := clock s; dirs := dirs s; summaries := summaries s;
               trace := trace s ++ [e] |}).

(** An awaited external call: it is logged with its outcome and advances the
    clock; [fsys] is its effect on the staging directories when it
    resolves. *)
Definition ext {A} (c : Call) (r : nat -> result A) (shown : A -> Outcome)
    (fsys : A -> list jsstring -> list jsstring) : M A :=
  fun s =>
    match r (clock s) with
    | Ok a =>
        (Ok a, {| clock := S (clock s); dirs := fsys a (dirs s);
                  summaries := summaries s;
                  trace := trace s ++ [Ext c (shown a)] |})
    | Throw e =>
        (Throw e, {| clock := S (clock s); dirs := dirs s;
                     summaries := summaries s;
                     trace := trace s ++ [Ext c (Fault e)] |})
    end.

Definition jsstring_eq_dec : forall a b : jsstring, {a = b} + {a <> b} :=
  list_eq_dec N.eq_dec.

Definition set_summaries (l : list jsstring) : M unit :=
  fun s =>
    (Ok tt, {| clock := clock s; dirs := dirs s; summaries := l;
               trace := trace s |}).

Definition get_summaries : M (list jsstring) := fun s => (Ok (summaries s), s).

(** [writer.write(encoder.encode(fragment))] and [writer.close()].  The
    writer is taken to accept every fragment. *)
Definition write (fragment : jsstring) : M unit := log (Wrote fragment).
Definition close : M unit := log Closed.

Definition brain : jsstring := [55358%N; 56800%N].
Definition test_tube : jsstring := [55358%N; 56810%N].

Definition processing (fileName : jsstring) : jsstring :=
  js "Processing " ++ fileName ++ js "..." ++ nl.

Definition analyzing (i n : nat) (fileName : jsstring) : jsstring :=
  brain ++ js " Analyzing section " ++ ofNat i ++ js " of " ++ ofNat n
    ++ js " for " ++ fileName ++ nl.

Definition summary_for (fileName fullSummary : jsstring) : jsstring :=
  js "Summary for " ++ fileName ++ js ":" ++ nl ++ fullSummary ++ nl ++ nl.

Definition synthesizing : jsstring :=
  test_tube ++ js " Synthesizing findings..." ++ nl.

Definition unified_analysis (text : jsstring) : jsstring :=
  js "Unified Analysis:" ++ nl ++ text ++ nl.

Definition error_fragment (message : jsstring) : jsstring :=
  js "Error: " ++ message ++ nl.

Section Route.

Variable w : World.

Definition arrayBuffer (file : File) : M (list N) :=
  ext (ArrayBuffer (name file)) (fun t => file_arrayBuffer w t file)
      (fun _ => Done) (fun _ d => d).

(** A resolved [fs.mkdtemp] has created the directory it returns. *)
Definition mkdtemp (prefix : jsstring) : M jsstring :=
  ext (Mkdtemp prefix) (fun t => fs_mkdtemp w t prefix)
      Text (fun d ds => d :: ds).

Definition writeFile (path : jsstring) (buffer : list N) : M unit :=
  ext (WriteFile path) (fun t => fs_writeFile w t path buffer)
      (fun _ => Done) (fun _ d => d).

Definition load (path : jsstring) : M (list Document) :=
  ext (Load path) (fun t => loader_load w t path)
      Docs (fun _ d => d).

Definition splitDocuments (docs : list Document) : M (list Document) :=
  ext SplitDocuments (fun t => splitter_splitDocuments w t docs)
      Docs (fun _ d => d).

Definition summarize (i : nat) (paper_content : jsstring) : M jsstring :=
  ext (Summarize i paper_content)
      (fun t => summarizationChain_call w t paper_content)
      Text (fun _ d => d).

Definition synthesize (joined : jsstring) : M jsstring :=
  ext (Synthesize joined) (fun t => unifiedAnalysisChain_call w t joined)
      Text (fun _ d => d).

(** A resolved [fs.rm(dir, { recursive: true, force: true })] leaves no
    [dir]. *)
Definition rm (dir : jsstring) : M unit :=
  ext (Rm dir) (fun t => fs_rm w t dir)
      (fun _ => Done) (fun _ ds => remove jsstring_eq_dec dir ds).

(** The [for] loop of [processFile], with [n = Math.min(chunks.length, 5)],
    [k = n - i] iterations left and [yield_] the consumer of the generator.
    Reading [chunks[i]] out of range gives [undefined], whose [pageContent]
    is a [TypeError]. *)
Fixpoint summarize_loop (yield_ : jsstring -> M unit) (fileName : jsstring)
    (chunks : list Document) (n k i : nat) (fullSummary : jsstring)
    : M jsstring :=
  match k with
  | 0 => ret fullSummary
  | S k' =>
      match nth_error chunks i with
      | None => throw (js "Cannot read properties of undefined")
      | Some chunk =>
          chunkSummary <- summarize i (pageContent chunk);;
          let fullSummary := fullSummary ++ chunkSummary ++ js " " in
          yield_ (analyzing (i + 1) n fileName);;
          summarize_loop yield_ fileName chunks n k' (S i) fullSummary
      end
  end.

(** The [try] block of [processFile]. *)
Definition processFile_try (file : File) (yield_ : jsstring -> M unit)
    (tempFilePath : jsstring) : M jsstring :=
  docs <- load tempFilePath;;
  chunks <- splitDocuments docs;;
  let n := Nat.min (List.length chunks) 5 in
  fullSummary <- summarize_loop yield_ (name file) chunks n n 0 [];;
  let fullSummary := trim fullSummary in
  yield_ (summary_for (name file) fullSummary);;
  ret fullSummary.

(** The async generator [processFile], in continuation-passing style: each
    [yield] hands the fragment to the body of the consumer's [for await].
    The staging directory is made and written before the [try] is
    entered. *)
Definition processFile (file : File) (yield_ : jsstring -> M unit)
    : M jsstring :=
  buffer <- arrayBuffer file;;
  tempDir <- mkdtemp (path_join w (os_tmpdir w) (js "pdf-upload-"));;
  let tempFilePath := path_join w tempDir (name file) in
  writeFile tempFilePath buffer;;
  yield_ (processing (name file));;
  try_finally (processFile_try file yield_ tempFilePath) (rm tempDir).

(** *** The handler *)

Definition FormData := list (jsstring * File).

Definition getAll (key : jsstring) (data : FormData) : list File :=
  map snd (filter (fun e => units_eqb key (fst e)) data).

(** [request.formData()] may itself reject. *)
Record Request := { formData : result FormData }.

Inductive Body : Type :=
| BodyText (text : jsstring)
| BodyStream.

Record Response := {
  status : nat;
  body : Body;
  contentType : option jsstring
}.

(** The body of [for await (const chunk of processFile(...))]. *)
Definition forward (chunk : jsstring) : M unit :=
  write chunk;;
  if startsWith (js "Summary for") chunk
  then (l <- get_summaries;; set_summaries (l ++ [chunk]))
  else ret tt.

Fixpoint for_files (files : list File) : M unit :=
  match files with
  | [] => ret tt
  | file :: rest => processFile file forward;; for_files rest
  end.

Definition worker_try (files : list File) : M unit :=
  set_summaries [];;
  for_files files;;
  write synthesizing;;
  l <- get_summaries;;
  unifiedAnalysis <- synthesize (join nl l);;
  write (unified_analysis unifiedAnalysis).

(** The detached [(async () => { ... })()].  It runs while the response is
    being read; its events are recorded in the order it performs them. *)
Definition worker (files : list File) : M unit :=
  try_finally
    (try_catch (worker_try files) (fun e => write (error_fragment e)))
    close.

Definition POST (request : Request) : M Response :=
  match formData request with
  | Throw e => throw e
  | Ok data =>
      let files := getAll (js "files") data in
      if Nat.eqb (List.length files) 0
      then ret {| status := 400; body := BodyText (js "No files uploaded");
                  contentType := None |}
      else
        log Opened;;
        worker files;;
        ret {| status := 200; body := BodyStream;
               contentType := Some (js "text/plain; charset=utf-8") |}
  end.

End Route.

(** *** Loading the module

    [process.env], and what evaluating the module gives: its export [POST],
    unless the statement at its top throws. *)

Definition Env := jsstring -> option jsstring.

Definition missing_key : jsstring :=
  js "OpenAI API key not found in environment variables".

Definition route_module (env : Env)
    : result (World -> Request -> M Response) :=
  match env (js "OPENAI_API_KEY") with
  | None => Throw missing_key
  | Some OPENAI_API_KEY =>
      if truthy OPENAI_API_KEY then Ok POST else Throw missing_key
  end.

(** Modelled from the spec: the dispatch of the requests to the handler
    that the route exports, which is the framework's and not part of the
    sources of the repository.  The requests are answered one after the
    other. *)
Fixpoint serve_requests (handler : Request -> M Response)
    (requests : list Request) (s : State)
    : list (result Response) * State :=
  match requests with
  | [] => ([], s)
  | request :: rest =>
      match handler request s with
      | (r, s1) =>
          match serve_requests handler rest s1 with
          | (rs, s2) => (r :: rs, s2)
          end
      end
  end.

(** Modelled from the spec: the process that loads the route, which is
    the framework's and not part of the sources of the repository.  The
    specification has the absence of the credential as a fatal startup
    condition that prevents the service from serving any request: when
    evaluating the module throws, the process answers nothing; otherwise it
    answers the requests with the handler the module exports. *)
Definition serve (w : World) (env : Env) (requests : list Request)
    (s : State) : result (list (result Response)) * State :=
  match route_module env with
  | Throw e => (Throw e, s)
  | Ok handler =>
      match serve_requests (handler w) requests s with
      | (rs, s') => (Ok rs, s')
      end
  end.

(** *** Reading a trace *)

Fixpoint writes (evs : list Event) : list jsstring :=
  match evs with
  | [] => []
  | Wrote f :: evs' => f :: writes evs'
  | _ :: evs' => writes evs'
  end.

Fixpoint faults (evs : list Event) : list jsstring :=
  match evs with
  | [] => []
  | Ext _ (Fault m) :: evs' => m :: faults evs'
  | _ :: evs' => faults evs'
  end.

Fixpoint closes (evs : list Event) : nat :=
  match evs with
  | [] => 0
  | Closed :: evs' => S (closes evs')
  | _ :: evs' => closes evs'
  end.

(** The chunk indices the summarization chain was called on. *)
Fixpoint summarized (evs : list Event) : list nat :=
  match evs with
  | [] => []
  | Ext (Summarize i _) _ :: evs' => i :: summarized evs'
  | _ :: evs' => summarized evs'
  end.

(** The texts the summarization chain returned. *)
Fixpoint chunk_summaries (evs : list Event) : list jsstring :=
  match evs with
  | [] => []
  | Ext (Summarize _ _) (Text t) :: evs' => t :: chunk_summaries evs'
  | _ :: evs' => chunk_summaries evs'
  end.

(** The directories [fs.rm] was called on. *)
Fixpoint removals (evs : list Event) : list jsstring :=
  match evs with
  | [] => []
  | Ext (Rm d) _ :: evs' => d :: removals evs'
  | _ :: evs' => removals evs'
  end.

(** The rejections of the summarization chain. *)
Fixpoint summarize_faults (evs : list Event) : list jsstring :=
  match evs with
  | [] => []
  | Ext (Summarize _ _) (Fault m) :: evs' => m :: summarize_faults evs'
  | _ :: evs' => summarize_faults evs'
  end.

(** The progress lines of sections [first + 1 .. first + count]. *)
Definition progress (fileName : jsstring) (n first count : nat)
    : list jsstring :=
  map (fun i => analyzing (i + 1) n fileName) (seq first count).

(** The fragments of a file that was processed to the end. *)
Definition file_block (file : File) (block : list jsstring) : Prop :=
  exists n shown fullSummary,
    block = processing (name file)
              :: progress (name file) n 0 shown
              ++ [summary_for (name file) fullSummary].

Definition is_summary (f : jsstring) : bool := startsWith (js "Summary for") f.
Definition is_unified (f : jsstring) : bool :=
  startsWith (js "Unified Analysis:") f.
Definition is_error (f : jsstring) : bool := startsWith (js "Error: ") f.
Definition is_analyzing (f : jsstring) : bool :=
  startsWith (brain ++ js " Analyzing section ") f.

Definition init (ds : list jsstring) : State :=
  {| clock := 0; dirs := ds; summaries := []; trace := [] |}.

(** The staging directories left by a run of events. *)
Fixpoint fs_apply (evs : list Event) (ds : list jsstring) : list jsstring :=
  match evs with
  | [] => ds
  | Ext (Mkdtemp _) (Text d) :: evs' => fs_apply evs' (d :: ds)
  | Ext (Rm d) Done :: evs' => fs_apply evs' (remove jsstring_eq_dec d ds)
  | _ :: evs' => fs_apply evs' ds
  end.

(** [s'] is [s] after the events [evs], all of whose written fragments went
    through [forward]. *)
Definition after (s : State) (evs : list Event) (s' : State) : Prop :=
  trace s' = trace s ++ evs
  /\ dirs s' = fs_apply evs (dirs s)
  /\ summaries s' = summaries s ++ filter is_summary (writes evs).

(** *** The runs of the route, as event sequences

    These relations list the paths through [processFile] and the worker; the
    lemmas of [ServerFacts] show that every run of the code is one of
    them. *)

Inductive LoopRun (fileName : jsstring) (chunks : list Document) (n : nat)
  : nat -> nat -> jsstring -> list Event -> result jsstring -> Prop :=
| LoopDone i acc :
    LoopRun fileName chunks n 0 i acc [] (Ok acc)
| LoopFault k i acc c m :
    nth_error chunks i = Some c ->
    LoopRun fileName chunks n (S k) i acc
      [Ext (Summarize i (pageContent c)) (Fault m)] (Throw m)
| LoopStep k i acc c t evs r :
    nth_error chunks i = Some c ->
    LoopRun fileName chunks n k (S i) (acc ++ t ++ js " ") evs r ->
    LoopRun fileName chunks n (S k) i acc
      (Ext (Summarize i (pageContent c)) (Text t)
         :: Wrote (analyzing (i + 1) n fileName) :: evs) r.

(** The [try] block of [processFile]. *)
Inductive TryRun (file : File) : list Event -> result jsstring -> Prop :=
| TryLoadFault path m :
    TryRun file [Ext (Load path) (Fault m)] (Throw m)
| TrySplitFault path docs m :
    TryRun file [Ext (Load path) (Docs docs); Ext SplitDocuments (Fault m)]
      (Throw m)
| TryLoopFault path docs chunks evs m :
    LoopRun (name file) chunks (Nat.min (List.length chunks) 5)
      (Nat.min (List.length chunks) 5) 0 [] evs (Throw m) ->
    TryRun file
      (Ext (Load path) (Docs docs) :: Ext SplitDocuments (Docs chunks) :: evs)
      (Throw m)
| TrySummary path docs chunks evs full :
    LoopRun (name file) chunks (Nat.min (List.length chunks) 5)
      (Nat.min (List.length chunks) 5) 0 [] evs (Ok full) ->
    TryRun file
      (Ext (Load path) (Docs docs) :: Ext SplitDocuments (Docs chunks)
         :: evs ++ [Wrote (summary_for (name file) (trim full))])
      (Ok (trim full)).

Inductive FileRun (file : File) : list Event -> result jsstring -> Prop :=
| FileUnread m :
    FileRun file [Ext (ArrayBuffer (name file)) (Fault m)] (Throw m)
| FileNoDir prefix m :
    FileRun file
      [Ext (ArrayBuffer (name file)) Done; Ext (Mkdtemp prefix) (Fault m)]
      (Throw m)
| FileUnstaged prefix tempDir path m :
    FileRun file
      [Ext (ArrayBuffer (name file)) Done; Ext (Mkdtemp prefix) (Text tempDir);
       Ext (WriteFile path) (Fault m)]
      (Throw m)
| FileCleaned prefix tempDir path evs r :
    TryRun file evs r ->
    FileRun file
      (Ext (ArrayBuffer (name file)) Done :: Ext (Mkdtemp prefix) (Text tempDir)
         :: Ext (WriteFile path) Done :: Wrote (processing (name file))
         :: evs ++ [Ext (Rm tempDir) Done])
      r
| FileUncleaned prefix tempDir path evs r m :
    TryRun file evs r ->
    FileRun file
      (Ext (ArrayBuffer (name file)) Done :: Ext (Mkdtemp prefix) (Text tempDir)
         :: Ext (WriteFile path) Done :: Wrote (processing (name file))
         :: evs ++ [Ext (Rm tempDir) (Fault m)])
      (Throw m).

Inductive FilesRun : list File -> list Event -> result unit -> Prop :=
| FilesDone : FilesRun [] [] (Ok tt)
| FilesStop file rest evs m :
    FileRun file evs (Throw m) ->
    FilesRun (file :: rest) evs (Throw m)
| FilesNext file rest evs v evs' r :
    FileRun file evs (Ok v) ->
    FilesRun rest evs' r ->
    FilesRun (file :: rest) (evs ++ evs') r.

(** The events of the loop, and those of the [try] block. *)
Definition loop_event (e : Event) : Prop :=
  match e with
  | Ext (Summarize _ _) _ | Wrote _ => True
  | _ => False
  end.

Definition try_event (e : Event) : Prop :=
  match e with
  | Ext (Load _) _ | Ext SplitDocuments _ | Ext (Summarize _ _) _ | Wrote _ =>
      True
  | _ => False
  end.

Inductive WorkerRun (files : list File) : list Event -> Prop :=
| WorkerFileFault evs m :
    FilesRun files evs (Throw m) ->
    WorkerRun files (evs ++ [Wrote (error_fragment m); Closed])
| WorkerSynthesisFault evs m :
    FilesRun files evs (Ok tt) ->
    WorkerRun files
      (evs ++ [Wrote synthesizing;
               Ext (Synthesize (join nl (filter is_summary (writes evs))))
                   (Fault m);
               Wrote (error_fragment m); Closed])
| WorkerDone evs t :
    FilesRun files evs (Ok tt) ->
    WorkerRun files
      (evs ++ [Wrote synthesizing;
               Ext (Synthesize (join nl (filter is_summary (writes evs))))
                   (Text t);
               Wrote (unified_analysis t); Closed]).

(** *** More readings of a trace *)

(** The names of the files whose bytes were asked for. *)
Fixpoint read_files (evs : list Event) : list jsstring :=
  match evs with
  | [] => []
  | Ext (ArrayBuffer fileName) _ :: evs' => fileName :: read_files evs'
  | _ :: evs' => read_files evs'
  end.

(** The inputs the synthesis chain was called on. *)
Fixpoint synthesized (evs : list Event) : list jsstring :=
  match evs with
  | [] => []
  | Ext (Synthesize input) _ :: evs' => input :: synthesized evs'
  | _ :: evs' => synthesized evs'
  end.

(** The rejections of [fs.writeFile] and of [fs.rm]. *)
Fixpoint staging_faults (evs : list Event) : list jsstring :=
  match evs with
  | [] => []
  | Ext (WriteFile _) (Fault m) :: evs' => m :: staging_faults evs'
  | Ext (Rm _) (Fault m) :: evs' => m :: staging_faults evs'
  | _ :: evs' => staging_faults evs'
  end.

(** *** Consumers that may throw

    [processFile] is written against any consumer of its fragments.  The
    body of the [for await] throws when [writer.write] rejects; the
    generator is then closed where it is suspended, which runs the
    [finally] of a [try] it is inside of and nothing else.  In
    continuation-passing style that is the consumer throwing. *)

(** A consumer that makes no external call of its own and leaves the
    staging directories alone: all it may do to the trace is record
    fragments as written. *)
Definition quiet (yield_ : jsstring -> M unit) : Prop :=
  forall f s r s',
    yield_ f s = (r, s') ->
    dirs s' = dirs s /\ exists ws, trace s' = trace s ++ map Wrote ws.

(** A consumer that never throws. *)
Definition accepting (yield_ : jsstring -> M unit) : Prop :=
  forall f s, exists s', yield_ f s = (Ok tt, s').

(** [writer.write] for a writer that rejects the write made after [n]
    events with [m] when [rejects n = Some m]. *)
Definition write_to (rejects : nat -> option jsstring) (fragment : jsstring)
    : M unit :=
  fun s =>
    match rejects (List.length (trace s)) with
    | Some m => (Throw m, s)
    | None => write fragment s
    end.

(** The body of the [for await] with such a writer. *)
Definition forward_to (rejects : nat -> option jsstring) (chunk : jsstring)
    : M unit :=
  write_to rejects chunk;;
  if startsWith (js "Summary for") chunk
  then (l <- get_summaries;; set_summaries (l ++ [chunk]))
  else ret tt.

(** The loop over the files, for any consumer. *)
Fixpoint for_files_with (w : World) (yield_ : jsstring -> M unit)
    (files : list File) : M unit :=
  match files with
  | [] => ret tt
  | file :: rest =>
      processFile w file yield_;; for_files_with w yield_ rest
  end.

(** [s'] is [s] after the events [evs], none of which touches the staging
    directories. *)
Definition calm (s : State) (evs : list Event) (s' : State) : Prop :=
  trace s' = trace s ++ evs
  /\ dirs s' = dirs s
  /\ removals evs = []
  /\ staging_faults evs = [].

(** Calls that neither make nor remove a directory, and are not the
    staging write. *)
Definition harmless (c : Call) : Prop :=
  match c with
  | Mkdtemp _ | WriteFile _ | Rm _ => False
  | _ => True
  end.

End Server.

(** ** The client: [app/page.tsx] *)

Module Client.

(** A [File] object held by the page.  Two [File] objects are told apart by
    identity ([!==]), which [ident] stands for. *)
Record Upload := { ident : nat; file : Server.File }.

Definition fileName (u : Upload) : jsstring := Server.name (file u).

Record AnalysisResult := {
  result_summaries : list jsstring;
  unifiedAnalysis : jsstring
}.

(** The state of the component [ResearchPaperAnalyzer]. *)
Record UI := {
  files : list Upload;
  results : option AnalysisResult;
  isLoading : bool;
  error : option jsstring;
  scientificProcess : jsstring
}.

(** What is thrown: an [Error] with its message, or some other value. *)
Inductive Exn : Type :=
| IsError (message : jsstring)
| NotError.

Inductive Completion : Type :=
| Normal
| Thrown (e : Exn).

(** How the body of a response ends: [reader.read()] reports [done], or it
    rejects. *)
Inductive StreamEnd : Type :=
| Finished
| ReadFailed (e : Exn).

Record HttpResponse := {
  status : nat;
  statusText : jsstring;
  chunks : list jsstring;
  ending : StreamEnd
}.

Inductive Fetched : Type :=
| FetchRejected (e : Exn)
| Responded (response : HttpResponse).

(** [response.ok] *)
Definition ok (response : HttpResponse) : bool :=
  Nat.leb 200 (status response) && Nat.leb (status response) 299.

(** The locals of the read loop, with the progress log it appends to.
    [published] is the [unifiedAnalysis] of the object given to
    [setResults]; the [summaries] of that object is the array [summaries]
    itself, not a copy. *)
Record Reader := {
  accumulatedText : jsstring;
  currentSummary : jsstring;
  summaries : list jsstring;
  published : option jsstring;
  progressText : jsstring
}.

Definition start (log : jsstring) : Reader :=
  {| accumulatedText := []; currentSummary := []; summaries := [];
     published := None; progressText := log |}.

Definition summaryMarker : jsstring := js "Summary for".
Definition unifiedMarker : jsstring := js "Unified Analysis:".

(** [accumulatedText += chunk; setScientificProcess(prev => prev + chunk)] *)
Definition receive (chunk : jsstring) (r : Reader) : Reader :=
  {| accumulatedText := accumulatedText r ++ chunk;
     currentSummary := currentSummary r;
     summaries := summaries r;
     published := published r;
     progressText := progressText r ++ chunk |}.

(** [if (currentSummary) summaries.push(currentSummary.trim())] *)
Definition finalize (r : Reader) : list jsstring :=
  if truthy (currentSummary r)
  then summaries r ++ [trim (currentSummary r)]
  else summaries r.

(** The first [if]/[else if] of the loop body.  An index out of range gives
    [undefined], which is falsy like the empty string and is only ever
    tested before the next assignment. *)
Definition on_summary_marker (chunk : jsstring) (r : Reader) : Reader :=
  if includes summaryMarker chunk then
    {| accumulatedText := accumulatedText r;
       currentSummary :=
         match nth_error (split summaryMarker chunk) 1 with
         | Some t => t
         | None => []
         end;
       summaries := finalize r;
       published := published r;
       progressText := progressText r |}
  else if truthy (currentSummary r) then
    {| accumulatedText := accumulatedText r;
       currentSummary := currentSummary r ++ chunk;
       summaries := summaries r;
       published := published r;
       progressText := progressText r |}
  else r.

(** The second [if] of the loop body; [undefined.trim()] is a
    [TypeError]. *)
Definition on_unified_marker (chunk : jsstring) (r : Reader)
    : Reader * Completion :=
  if includes unifiedMarker chunk then
    let pushed :=
      {| accumulatedText := accumulatedText r;
         currentSummary := currentSummary r;
         summaries := finalize r;
         published := published r;
         progressText := progressText r |} in
    match nth_error (split unifiedMarker (accumulatedText r)) 1 with
    | None =>
        (pushed,
         Thrown (IsError (js "Cannot read properties of undefined")))
    | Some t =>
        ({| accumulatedText := accumulatedText r;
            currentSummary := currentSummary r;
            summaries := finalize r;
            published := Some (trim t);
            progressText := progressText r |}, Normal)
    end
  else (r, Normal).

(** One turn of the [while (true)] loop on a chunk that was read. *)
Definition read_chunk (chunk : jsstring) (r : Reader) : Reader * Completion :=
  on_unified_marker chunk (on_summary_marker chunk (receive chunk r)).

Fixpoint read_loop (body : list jsstring) (e : StreamEnd) (r : Reader)
    : Reader * Completion :=
  match body with
  | [] =>
      match e with
      | Finished => (r, Normal)
      | ReadFailed x => (r, Thrown x)
      end
  | chunk :: rest =>
      match read_chunk chunk r with
      | (r', Normal) => read_loop rest e r'
      | (r', Thrown x) => (r', Thrown x)
      end
  end.

(** The [results] state as the component sees it after the loop. *)
Definition result_of (r : Reader) : option AnalysisResult :=
  match published r with
  | Some u => Some {| result_summaries := summaries r; unifiedAnalysis := u |}
  | None => None
  end.

(** The [try] block of [generateAnalysis]. *)
Definition generateAnalysis_try (net : Fetched) (log : jsstring)
    : Reader * Completion :=
  match net with
  | FetchRejected x => (start log, Thrown x)
  | Responded response =>
      if ok response
      then read_loop (chunks response) (ending response) (start log)
      else (start log,
            Thrown (IsError (js "Server responded with "
                               ++ ofNat (status response) ++ js ": "
                               ++ statusText response)))
  end.

(** [generateAnalysis], given what the network does. *)
Definition generateAnalysis (net : Fetched) (ui : UI) : UI :=
  let log :=
    js "Initiating analysis of " ++ ofNat (List.length (files ui))
      ++ js " files..." in
  match generateAnalysis_try net log with
  | (r, Normal) =>
      {| files := files ui;
         results := result_of r;
         isLoading := false;
         error := None;
         scientificProcess :=
           progressText r ++ nl ++ js "Analysis completed successfully." |}
  | (r, Thrown (IsError message)) =>
      {| files := files ui;
         results := result_of r;
         isLoading := false;
         error := Some (js "An error occurred: " ++ message);
         scientificProcess :=
           progressText r ++ nl ++ js "Error occurred: " ++ message |}
  | (r, Thrown NotError) =>
      {| files := files ui;
         results := result_of r;
         isLoading := false;
         error := None;
         scientificProcess := progressText r |}
  end.

(** [handleFileChange]; [picked] is [event.target.files], [None] for
    [null]. *)
Definition handleFileChange (picked : option (list Upload)) (ui : UI) : UI :=
  match picked with
  | None => ui
  | Some newFiles =>
      {| files := files ui ++ newFiles;
         results := results ui;
         isLoading := isLoading ui;
         error := error ui;
         scientificProcess :=
           js "Files selected: " ++ join (js ", ") (map fileName newFiles) |}
  end.

Definition removeFile (fileToRemove : Upload) (ui : UI) : UI :=
  {| files :=
       filter (fun f => negb (Nat.eqb (ident f) (ident fileToRemove)))
              (files ui);
     results := results ui;
     isLoading := isLoading ui;
     error := error ui;
     scientificProcess := js "File removed: " ++ fileName fileToRemove |}.

(** The form data that [generateAnalysis] posts. *)
Definition formData_of (ui : UI) : Server.FormData :=
  map (fun f => (js "files", file f)) (files ui).

(** The parts of the page that depend on the state. *)
Record View := {
  fileRows : list jsstring;
  analyzeDisabled : bool;
  spinner : bool;
  alert : option jsstring;
  progressLog : option jsstring;
  resultsView : option (list jsstring * jsstring)
}.

Definition render (ui : UI) : View :=
  {| fileRows := map fileName (files ui);
     analyzeDisabled := Nat.eqb (List.length (files ui)) 0 || isLoading ui;
     spinner := isLoading ui;
     alert :=
       match error ui with
       | Some e => if truthy e then Some e else None
       | None => None
       end;
     progressLog :=
       if truthy (scientificProcess ui) then Some (scientificProcess ui)
       else None;
     resultsView :=
       match results ui with
       | Some r => Some (result_summaries r, unifiedAnalysis r)
       | None => None
       end |}.

Definition blank : UI :=
  {| files := []; results := None; isLoading := false; error := None;
     scientificProcess := [] |}.

(** *** Shapes of a stream

    A chunk with neither marker; and a chunk with [Summary for] followed by
    the chunks read before the next chunk that has a marker. *)

Definition plain (chunk : jsstring) : Prop :=
  includes summaryMarker chunk = false
  /\ includes unifiedMarker chunk = false.

Record Block := { opening : jsstring; trailing : list jsstring }.

Definition block_chunks (b : Block) : list jsstring :=
  opening b :: trailing b.

(** [opening.split('Summary for')[1]] *)
Definition opening_text (b : Block) : jsstring :=
  match nth_error (split summaryMarker (opening b)) 1 with
  | Some t => t
  | None => []
  end.

Definition block_text (b : Block) : jsstring :=
  opening_text b ++ List.concat (trailing b).

Definition well_formed (b : Block) : Prop :=
  includes summaryMarker (opening b) = true
  /\ includes unifiedMarker (opening b) = false
  /\ truthy (opening_text b) = true
  /\ Forall plain (trailing b).

End Client.

(** ** Concrete worlds and requests *)

Module Scenario.

Import Server.

(** A world in which the external call number [t] rejects with [m] when
    [rejects t = Some m] and resolves otherwise; every PDF splits into the
    chunks [pages]. *)
Definition world (rejects : nat -> option jsstring) (pages : list Document)
    : World :=
  let guard (A : Type) (t : nat) (a : A) : result A :=
    match rejects t with Some m => Throw m | None => Ok a end in
  {| os_tmpdir := js "/tmp";
     path_join := fun a b => a ++ js "/" ++ b;
     file_arrayBuffer := fun t f => guard _ t (content f);
     fs_mkdtemp := fun t p => guard _ t (p ++ ofNat t);
     fs_writeFile := fun t _ _ => guard _ t tt;
     loader_load := fun t _ => guard _ t pages;
     splitter_splitDocuments := fun t d => guard _ t d;
     summarizationChain_call := fun t c => guard _ t (js "about " ++ c);
     unifiedAnalysisChain_call := fun t _ => guard _ t (js "theme");
     fs_rm := fun t _ => guard _ t tt |}.

Definition never : nat -> option jsstring := fun _ => None.

Definition once (t : nat) (m : string) : nat -> option jsstring :=
  fun t' => if Nat.eqb t' t then Some (js m) else None.

Definition pages (n : nat) : list Document :=
  map (fun i => {| pageContent := js "page " ++ ofNat i |}) (seq 1 n).

Definition pdf (fileName : string) : File :=
  {| name := js fileName; content := [37; 80; 68; 70]%N |}.

Definition upload (fileNames : list string) : Request :=
  {| formData := Ok (map (fun n => (js "files", pdf n)) fileNames) |}.

End Scenario.

(** ** Facts about the string operations *)

Module JSFacts.

Lemma startsWith_app (p r : jsstring) : startsWith p (p ++ r) = true.
Proof.
  induction p as [|x p IH]; simpl; [reflexivity|].
  rewrite N.eqb_refl, IH. reflexivity.
Qed.

Lemma startsWith_inv (p s : jsstring) :
  startsWith p s = true -> s = p ++ skipn (List.length p) s.
Proof.
  revert s. induction p as [|x p IH]; intros s H; [reflexivity|].
  destruct s as [|y s]; simpl in H; [discriminate|].
  apply andb_true_iff in H as [Hx Hp]. apply N.eqb_eq in Hx. subst y.
  simpl. f_equal. apply IH, Hp.
Qed.

Lemma indexOf_nil (m : jsstring) :
  indexOf m [] = if startsWith m [] then Some 0 else None.
Proof. reflexivity. Qed.

Lemma indexOf_cons (m : jsstring) (c : N) (s : jsstring) :
  indexOf m (c :: s)
  = if startsWith m (c :: s) then Some 0 else option_map S (indexOf m s).
Proof. reflexivity. Qed.

(** [indexOf] finds an occurrence... *)
Lemma indexOf_found (m s : jsstring) (i : nat) :
  indexOf m s = Some i ->
  s = firstn i s ++ m ++ skipn (i + List.length m) s.
Proof.
  revert i. induction s as [|c s IH]; intros i H.
  - rewrite indexOf_nil in H. destruct (startsWith m []) eqn:E; [|discriminate].
    injection H as <-. apply startsWith_inv in E. exact E.
  - rewrite indexOf_cons in H. destruct (startsWith m (c :: s)) eqn:E.
    + injection H as <-. apply startsWith_inv in E. exact E.
    + destruct (indexOf m s) as [j|] eqn:Ej; [|discriminate].
      injection H as <-. simpl. f_equal. apply IH. reflexivity.
Qed.

(** ... and it is the first one. *)
Lemma indexOf_first (m s : jsstring) (i j : nat) :
  indexOf m s = Some i -> j < i -> startsWith m (skipn j s) = false.
Proof.
  revert i j. induction s as [|c s IH]; intros i j H Hj.
  - rewrite indexOf_nil in H. destruct (startsWith m []); [|discriminate].
    injection H as <-. lia.
  - rewrite indexOf_cons in H. destruct (startsWith m (c :: s)) eqn:E.
    + injection H as <-. lia.
    + destruct (indexOf m s) as [i'|] eqn:Ei; [|discriminate].
      injection H as <-. destruct j as [|j]; [exact E|].
      simpl. apply (IH i'); [reflexivity|lia].
Qed.

Lemma startsWith_length (p s : jsstring) :
  startsWith p s = true -> List.length p <= List.length s.
Proof.
  intros H. apply startsWith_inv in H.
  apply (f_equal (@List.length N)) in H. rewrite length_app in H. lia.
Qed.

Lemma indexOf_bound (m s : jsstring) (i : nat) :
  indexOf m s = Some i -> i + List.length m <= List.length s.
Proof.
  revert i. induction s as [|c s IH]; intros i H.
  - rewrite indexOf_nil in H. destruct (startsWith m []) eqn:E; [|discriminate].
    injection H as <-. apply startsWith_length in E. exact E.
  - rewrite indexOf_cons in H. destruct (startsWith m (c :: s)) eqn:E.
    + injection H as <-. apply startsWith_length in E. exact E.
    + destruct (indexOf m s) as [j|] eqn:Ej; [|discriminate].
      injection H as <-. specialize (IH j eq_refl). simpl. lia.
Qed.

Lemma includes_app (a m b : jsstring) : includes m (a ++ m ++ b) = true.
Proof.
  unfold includes. induction a as [|c a IH]; simpl app.
  - destruct (m ++ b) as [|c s] eqn:E.
    + rewrite indexOf_nil, <- E, startsWith_app. reflexivity.
    + rewrite indexOf_cons, <- E, startsWith_app. reflexivity.
  - rewrite indexOf_cons. destruct (startsWith m (c :: a ++ m ++ b)); [reflexivity|].
    destruct (indexOf m (a ++ m ++ b)); [reflexivity|discriminate].
Qed.

Lemma includes_inv (m s : jsstring) :
  includes m s = true -> exists a b, s = a ++ m ++ b.
Proof.
  unfold includes. destruct (indexOf m s) as [i|] eqn:E; [|discriminate].
  intros _. apply indexOf_found in E. eauto.
Qed.

Lemma includes_app_l (m p s : jsstring) :
  includes m s = true -> includes m (p ++ s) = true.
Proof.
  intros H. apply includes_inv in H as (a & b & ->).
  rewrite app_assoc. apply includes_app.
Qed.

Lemma includes_app_r (m s q : jsstring) :
  includes m s = true -> includes m (s ++ q) = true.
Proof.
  intros H. apply includes_inv in H as (a & b & ->).
  rewrite <- !app_assoc. apply includes_app.
Qed.

Lemma upto_absent (m s : jsstring) : includes m s = false -> upto m s = s.
Proof.
  unfold includes, upto. destruct (indexOf m s); [discriminate|reflexivity].
Qed.

(** [s.split(m)[1]] when [m] occurs in [s]: what lies between its first and
    its second occurrence. *)
Lemma split_at1 (m s rest : jsstring) :
  m <> [] ->
  following m s = Some rest ->
  nth_error (split m s) 1 = Some (upto m rest).
Proof.
  intros Hm. unfold following.
  destruct (indexOf m s) as [i|] eqn:Ei; [|discriminate].
  intros H. injection H as <-.
  pose proof (indexOf_bound _ _ _ Ei) as Hb.
  destruct m as [|x m]; [congruence|]. unfold split.
  destruct (List.length s) as [|f] eqn:Hl; [simpl in Hb; lia|].
  cbn [split_fuel]. rewrite Ei. cbn [nth_error].
  destruct f as [|f]; cbn [split_fuel].
  - simpl in Hb. assert (i = 0) by lia. subst i.
    rewrite skipn_all2 by (simpl; lia). reflexivity.
  - unfold upto. destruct (indexOf (x :: m) (skipn _ s)); reflexivity.
Qed.

Lemma trimEnd_space (s : jsstring) : trimEnd (s ++ js " ") = trimEnd s.
Proof.
  unfold trimEnd. rewrite rev_app_distr. reflexivity.
Qed.

Lemma trim_space (s : jsstring) : trim (s ++ js " ") = trim s.
Proof. unfold trim. rewrite trimEnd_space. reflexivity. Qed.

(** Appending each piece followed by a space, as the loop of [processFile]
    does, is joining with single spaces up to the final trim. *)
Lemma trim_spaced (texts : list jsstring) :
  trim (fold_left (fun a t => a ++ t ++ js " ") texts [])
  = trim (join (js " ") texts).
Proof.
  assert (G : forall l a, fold_left (fun a t => a ++ t ++ js " ") l a
                          = a ++ List.concat (map (fun t => t ++ js " ") l)).
  { induction l as [|t l IH]; intros a; simpl.
    - rewrite app_nil_r. reflexivity.
    - rewrite IH, <- !app_assoc. reflexivity. }
  rewrite G. cbn [app].
  assert (J : forall l, l <> [] ->
                List.concat (map (fun t => t ++ js " ") l) = join (js " ") l ++ js " ").
  { induction l as [|t l IH]; intros Hl; [congruence|].
    destruct l as [|t' l].
    - simpl. rewrite app_nil_r. reflexivity.
    - cbn [map List.concat join]. cbn [map List.concat] in IH.
      rewrite IH by discriminate. rewrite <- !app_assoc. reflexivity. }
  destruct texts as [|t l]; [reflexivity|].
  rewrite J by discriminate. apply trim_space.
Qed.

End JSFacts.

(** ** Every run of the route is one of the listed event sequences *)

Module ServerFacts.

Import Server.

Lemma writes_app (a b : list Event) : writes (a ++ b) = writes a ++ writes b.
Proof.
  induction a as [|[c o| |f|] a IH]; simpl; rewrite ?IH; reflexivity.
Qed.

Lemma faults_app (a b : list Event) : faults (a ++ b) = faults a ++ faults b.
Proof.
  induction a as [|[c [m| | |]| |f|] a IH]; simpl; rewrite ?IH; reflexivity.
Qed.

Lemma closes_app (a b : list Event) : closes (a ++ b) = closes a + closes b.
Proof.
  induction a as [|[c o| |f|] a IH]; simpl; rewrite ?IH; reflexivity.
Qed.

Lemma summarized_app (a b : list Event) :
  summarized (a ++ b) = summarized a ++ summarized b.
Proof.
  induction a as [|[[]| | |] a IH]; simpl; rewrite ?IH; reflexivity.
Qed.

Lemma chunk_summaries_app (a b : list Event) :
  chunk_summaries (a ++ b) = chunk_summaries a ++ chunk_summaries b.
Proof.
  induction a as [|[[] []| | |] a IH]; simpl; rewrite ?IH; reflexivity.
Qed.

Lemma summarize_faults_app (a b : list Event) :
  summarize_faults (a ++ b) = summarize_faults a ++ summarize_faults b.
Proof.
  induction a as [|[[] []| | |] a IH]; simpl; rewrite ?IH; reflexivity.
Qed.

Lemma removals_app (a b : list Event) :
  removals (a ++ b) = removals a ++ removals b.
Proof.
  induction a as [|[[] o| | |] a IH]; simpl; rewrite ?IH; reflexivity.
Qed.

Lemma fs_apply_app (a b : list Event) (ds : list jsstring) :
  fs_apply (a ++ b) ds = fs_apply b (fs_apply a ds).
Proof.
  revert ds.
  induction a as [|[[] []| | |] a IH]; intros ds; simpl; rewrite ?IH; reflexivity.
Qed.

Lemma fs_apply_fault (c : Call) (m : jsstring) (ds : list jsstring) :
  fs_apply [Ext c (Fault m)] ds = ds.
Proof. destruct c; reflexivity. Qed.

Lemma after_refl (s : State) : after s [] s.
Proof.
  unfold after; simpl. rewrite !app_nil_r. auto.
Qed.

Lemma after_trans (s s1 s2 : State) (e1 e2 : list Event) :
  after s e1 s1 -> after s1 e2 s2 -> after s (e1 ++ e2) s2.
Proof.
  intros (T1 & D1 & S1) (T2 & D2 & S2). unfold after.
  rewrite T2, T1, D2, D1, S2, S1, fs_apply_app, writes_app, filter_app, !app_assoc.
  auto.
Qed.

Lemma after_cons (s s1 s2 : State) (e : Event) (evs : list Event) :
  after s [e] s1 -> after s1 evs s2 -> after s (e :: evs) s2.
Proof. apply (@after_trans s s1 s2 [e] evs). Qed.

Lemma bind_inv A B (m : M A) (k : A -> M B) (s : State) r s' :
  bind m k s = (r, s') ->
  (exists a s1, m s = (Ok a, s1) /\ k a s1 = (r, s'))
  \/ (exists e, m s = (Throw e, s') /\ r = Throw e).
Proof.
  unfold bind. destruct (m s) as [[a|e] s1]; intros H.
  - left. eauto.
  - right. inversion H; subst. eauto.
Qed.

Lemma ext_after A (c : Call) (r : nat -> result A) (shown : A -> Outcome)
    (fsys : A -> list jsstring -> list jsstring) (s : State) res s' :
  (forall a ds, fs_apply [Ext c (shown a)] ds = fsys a ds) ->
  ext c r shown fsys s = (res, s') ->
  (exists a, res = Ok a /\ after s [Ext c (shown a)] s')
  \/ (exists m, res = Throw m /\ after s [Ext c (Fault m)] s').
Proof.
  intros Hfs. unfold ext. destruct (r (clock s)) as [a|m]; intros H; inversion H; subst.
  - left. exists a. split; [reflexivity|]. unfold after.
    cbn [trace dirs summaries]. rewrite Hfs.
    repeat split. destruct c, (shown a); simpl; rewrite ?app_nil_r; auto.
  - right. exists m. split; [reflexivity|]. unfold after.
    cbn [trace dirs summaries]. rewrite fs_apply_fault.
    repeat split. destruct c; simpl; rewrite ?app_nil_r; auto.
Qed.

Lemma forward_after (f : jsstring) (s : State) :
  exists s', forward f s = (Ok tt, s') /\ after s [Wrote f] s'.
Proof.
  unfold forward, bind, write, log, get_summaries, set_summaries, after.
  cbn [fst snd].
  destruct (startsWith (js "Summary for") f) eqn:E;
    (eexists; split; [reflexivity|]);
    cbn [trace dirs summaries writes filter fs_apply];
    unfold is_summary; rewrite E, ?app_nil_r; auto.
Qed.

Lemma write_after (f : jsstring) (s : State) :
  is_summary f = false ->
  exists s', write f s = (Ok tt, s') /\ after s [Wrote f] s'.
Proof.
  intros H. unfold write, log, after. eexists. split; [reflexivity|].
  cbn [trace dirs summaries writes filter fs_apply].
  rewrite H, app_nil_r. auto.
Qed.

Section Runs.

Variable w : World.

Lemma summarize_loop_run (fileName : jsstring) (chunks : list Document)
    (n k : nat) :
  forall i acc s r s',
    i + k <= List.length chunks ->
    summarize_loop w forward fileName chunks n k i acc s = (r, s') ->
    exists evs, after s evs s' /\ LoopRun fileName chunks n k i acc evs r.
Proof.
  induction k as [|k IH]; intros i acc s r s' Hlen Hrun; simpl in Hrun.
  - inversion Hrun; subst. exists []. split; [apply after_refl|constructor].
  - destruct (nth_error chunks i) as [c|] eqn:Hc.
    2:{ apply nth_error_None in Hc. lia. }
    apply bind_inv in Hrun as [(t & s1 & Hcall & Hrun)|(m & Hcall & ->)].
    + unfold summarize in Hcall.
      apply ext_after in Hcall as [(t' & Ht & A1)|(m & Ht & _)];
        [inversion Ht; subst t'|discriminate|reflexivity].
      destruct (forward_after (analyzing (i + 1) n fileName) s1) as (s2 & Hy & A2).
      unfold bind in Hrun. rewrite Hy in Hrun.
      apply IH in Hrun as (evs & A3 & L); [|lia].
      eexists. split.
      * eapply after_cons; [exact A1|]. eapply after_cons; [exact A2|exact A3].
      * econstructor; eauto.
    + unfold summarize in Hcall.
      apply ext_after in Hcall as [(t' & Ht & _)|(m' & Ht & A1)];
        [discriminate|inversion Ht; subst m'|reflexivity].
      eexists. split; [exact A1|]. econstructor; eauto.
Qed.

Ltac ext_step H :=
  unfold arrayBuffer, mkdtemp, writeFile, load, splitDocuments, summarize,
    synthesize, rm in H;
  apply ext_after in H; [|reflexivity].

Ltac ok_step H a A :=
  ext_step H; destruct H as [(a & H & A)|(? & H & _)]; [|discriminate];
  injection H as H; subst a.

Ltac fault_step H A :=
  let m' := fresh "m" in
  ext_step H; destruct H as [(? & H & _)|(m' & H & A)]; [discriminate|];
  injection H as H; subst m'.

Lemma processFile_try_run (file : File) (path : jsstring) (s : State) r s' :
  processFile_try w file forward path s = (r, s') ->
  exists evs, after s evs s' /\ TryRun file evs r.
Proof.
  unfold processFile_try. intros Hrun.
  apply bind_inv in Hrun as [(docs & s1 & Hload & Hrun)|(m & Hload & ->)].
  2:{ fault_step Hload A1. eexists. split; [exact A1|constructor]. }
  ok_step Hload docs' A1.
  apply bind_inv in Hrun as [(chunks & s2 & Hsplit & Hrun)|(m & Hsplit & ->)].
  2:{ fault_step Hsplit A2. eexists.
      split; [eapply after_cons; eassumption|econstructor]. }
  ok_step Hsplit chunks' A2.
  apply bind_inv in Hrun as [(full & s3 & Hloop & Hrun)|(m & Hloop & ->)].
  - apply summarize_loop_run in Hloop as (evs & A3 & L); [|simpl; lia].
    destruct (forward_after (summary_for (name file) (trim full)) s3)
      as (s4 & Hy & A4).
    unfold bind in Hrun. rewrite Hy in Hrun. inversion Hrun; subst.
    eexists. split; [|eapply TrySummary; exact L].
    eapply after_cons; [exact A1|]. eapply after_cons; [exact A2|].
    eapply after_trans; [exact A3|exact A4].
  - apply summarize_loop_run in Hloop as (evs & A3 & L); [|simpl; lia].
    eexists. split; [|eapply TryLoopFault; exact L].
    eapply after_cons; [exact A1|]. eapply after_cons; [exact A2|exact A3].
Qed.

Lemma try_finally_inv A (body : M A) (fin : M unit) (s : State) r s' :
  try_finally body fin s = (r, s') ->
  exists rb s1 rf,
    body s = (rb, s1) /\ fin s1 = (rf, s')
    /\ r = match rf with Ok _ => rb | Throw e => Throw e end.
Proof.
  unfold try_finally. destruct (body s) as [rb s1].
  destruct (fin s1) as [[u|e] s2] eqn:F; intros H; inversion H; subst;
    do 3 eexists; eauto.
Qed.

Lemma processFile_run (file : File) (s : State) r s' :
  processFile w file forward s = (r, s') ->
  exists evs, after s evs s' /\ FileRun file evs r.
Proof.
  unfold processFile. intros Hrun.
  apply bind_inv in Hrun as [(buffer & s1 & Hab & Hrun)|(m & Hab & ->)].
  2:{ fault_step Hab A1. eexists. split; [exact A1|constructor]. }
  ok_step Hab buffer' A1.
  apply bind_inv in Hrun as [(tempDir & s2 & Hmk & Hrun)|(m & Hmk & ->)].
  2:{ fault_step Hmk A2. eexists.
      split; [eapply after_cons; eassumption|econstructor]. }
  ok_step Hmk tempDir' A2.
  apply bind_inv in Hrun as [(u & s3 & Hwr & Hrun)|(m & Hwr & ->)].
  2:{ fault_step Hwr A3. eexists.
      split; [eapply after_cons; [exact A1|]; eapply after_cons; eassumption
             |econstructor]. }
  ok_step Hwr u' A3.
  destruct (forward_after (processing (name file)) s3) as (s4 & Hy & A4).
  unfold bind in Hrun. rewrite Hy in Hrun.
  apply try_finally_inv in Hrun as (rb & s5 & rf & Hbody & Hfin & ->).
  apply processFile_try_run in Hbody as (evs & A5 & T).
  assert (A : forall o s6, after s5 [Ext (Rm tempDir) o] s6 ->
            after s (Ext (ArrayBuffer (name file)) Done
                       :: Ext (Mkdtemp (path_join w (os_tmpdir w) (js "pdf-upload-")))
                            (Text tempDir)
                       :: Ext (WriteFile (path_join w tempDir (name file))) Done
                       :: Wrote (processing (name file))
                       :: evs ++ [Ext (Rm tempDir) o]) s6).
  { intros o s6 A6.
    eapply after_cons; [exact A1|]. eapply after_cons; [exact A2|].
    eapply after_cons; [exact A3|]. eapply after_cons; [exact A4|].
    eapply after_trans; eassumption. }
  destruct rf as [u0|m].
  - ok_step Hfin u1 A6. eexists. split; [apply A; exact A6|].
    econstructor; exact T.
  - fault_step Hfin A6. eexists. split; [apply A; exact A6|].
    econstructor; exact T.
Qed.

Lemma for_files_run (files : list File) :
  forall s r s',
    for_files w files s = (r, s') ->
    exists evs, after s evs s' /\ FilesRun files evs r.
Proof.
  induction files as [|file rest IH]; intros s r s' Hrun; simpl in Hrun.
  - inversion Hrun; subst. exists []. split; [apply after_refl|constructor].
  - apply bind_inv in Hrun as [(v & s1 & Hfile & Hrun)|(m & Hfile & ->)].
    + apply processFile_run in Hfile as (evs & A1 & F).
      apply IH in Hrun as (evs' & A2 & R).
      exists (evs ++ evs'). split; [eapply after_trans; eassumption|].
      econstructor; eassumption.
    + apply processFile_run in Hfile as (evs & A1 & F).
      exists evs. split; [exact A1|]. constructor; exact F.
Qed.

(** The worker never throws: it returns once the stream is closed. *)
Lemma worker_run (files : list File) (s : State) r s' :
  worker w files s = (r, s') ->
  r = Ok tt
  /\ exists evs,
       WorkerRun files evs
       /\ trace s' = trace s ++ evs
       /\ dirs s' = fs_apply evs (dirs s).
Proof.
  unfold worker. intros Hrun.
  apply try_finally_inv in Hrun as (rb & s1 & rf & Hbody & Hfin & ->).
  unfold close, log in Hfin. injection Hfin as <- <-.
  unfold try_catch in Hbody.
  destruct (worker_try w files s) as [rt st] eqn:Htry.
  unfold worker_try in Htry.
  apply bind_inv in Htry as [(u0 & s0 & Hset & Htry)|(m & Hset & _)];
    [|discriminate].
  unfold set_summaries in Hset. injection Hset as _ <-.
  apply bind_inv in Htry as [(u1 & s2 & Hfiles & Htry)|(m & Hfiles & ->)].
  - apply for_files_run in Hfiles as (evs & (T & D & S) & R).
    cbn [trace dirs summaries app] in T, D, S. destruct u1.
    unfold bind, write, log, get_summaries in Htry. cbn [fst snd] in Htry.
    unfold synthesize, ext in Htry. cbn [clock trace dirs summaries] in Htry.
    destruct (unifiedAnalysisChain_call w (clock s2) (join nl (summaries s2)))
      as [t|m]; injection Htry as <- <-; injection Hbody as <- <-;
      cbn [trace dirs]; rewrite S in *; (split; [reflexivity|]).
    + exists (evs ++ [Wrote synthesizing;
                      Ext (Synthesize (join nl (filter is_summary (writes evs))))
                          (Text t);
                      Wrote (unified_analysis t); Closed]).
      split; [constructor; exact R|].
      rewrite T, D, fs_apply_app, <- !app_assoc. auto.
    + exists (evs ++ [Wrote synthesizing;
                      Ext (Synthesize (join nl (filter is_summary (writes evs))))
                          (Fault m);
                      Wrote (error_fragment m); Closed]).
      split; [constructor; exact R|].
      rewrite T, D, fs_apply_app, <- !app_assoc. auto.
  - apply for_files_run in Hfiles as (evs & (T & D & S) & R).
    cbn [trace dirs summaries app] in T, D, S.
    unfold write, log in Hbody. injection Hbody as <- <-.
    cbn [trace dirs]. split; [reflexivity|].
    exists (evs ++ [Wrote (error_fragment m); Closed]).
    split; [constructor; exact R|].
    rewrite T, D, fs_apply_app, <- !app_assoc. auto.
Qed.

(** A request with no file in the [files] field is answered without any
    effect. *)
Lemma POST_no_files (data : FormData) (s : State) :
  getAll (js "files") data = [] ->
  POST w {| formData := Ok data |} s
  = (Ok {| status := 400; body := BodyText (js "No files uploaded");
           contentType := None |}, s).
Proof.
  intros H. unfold POST. cbn [formData]. rewrite H. reflexivity.
Qed.

(** A request with files opens the stream and runs the worker. *)
Lemma POST_run (data : FormData) (s : State) :
  getAll (js "files") data <> [] ->
  exists s' evs,
    POST w {| formData := Ok data |} s
    = (Ok {| status := 200; body := BodyStream;
             contentType := Some (js "text/plain; charset=utf-8") |}, s')
    /\ WorkerRun (getAll (js "files") data) evs
    /\ trace s' = trace s ++ Opened :: evs
    /\ dirs s' = fs_apply evs (dirs s).
Proof.
  intros H. unfold POST. cbn [formData].
  destruct (getAll (js "files") data) as [|file rest] eqn:Hfiles;
    [congruence|].
  cbn [List.length Nat.eqb]. unfold bind at 1. unfold log at 1.
  match goal with
  | |- context [bind (worker w ?fs) _ ?s0] =>
      destruct (worker w fs s0) as [r s'] eqn:Hw
  end.
  pose proof Hw as Hw'.
  apply worker_run in Hw' as (-> & evs & R & T & D).
  cbn [trace dirs] in T, D.
  exists s', evs. unfold bind. rewrite Hw. unfold ret.
  split; [reflexivity|]. split; [exact R|]. split; [|exact D].
  rewrite T, <- app_assoc. reflexivity.
Qed.

End Runs.

(** *** How fragments are told apart *)

Lemma processing_kind (fileName : jsstring) :
  is_summary (processing fileName) = false
  /\ is_unified (processing fileName) = false
  /\ is_error (processing fileName) = false
  /\ is_analyzing (processing fileName) = false.
Proof. repeat split. Qed.

Lemma analyzing_kind (i n : nat) (fileName : jsstring) :
  is_summary (analyzing i n fileName) = false
  /\ is_unified (analyzing i n fileName) = false
  /\ is_error (analyzing i n fileName) = false
  /\ is_analyzing (analyzing i n fileName) = true.
Proof. repeat split. Qed.

Lemma summary_for_kind (fileName fullSummary : jsstring) :
  is_summary (summary_for fileName fullSummary) = true
  /\ is_unified (summary_for fileName fullSummary) = false
  /\ is_error (summary_for fileName fullSummary) = false
  /\ is_analyzing (summary_for fileName fullSummary) = false.
Proof. repeat split. Qed.

Lemma synthesizing_kind :
  is_summary synthesizing = false
  /\ is_unified synthesizing = false
  /\ is_error synthesizing = false
  /\ is_analyzing synthesizing = false.
Proof. repeat split. Qed.

Lemma unified_analysis_kind (text : jsstring) :
  is_summary (unified_analysis text) = false
  /\ is_unified (unified_analysis text) = true
  /\ is_error (unified_analysis text) = false
  /\ is_analyzing (unified_analysis text) = false.
Proof. repeat split. Qed.

Lemma error_fragment_kind (message : jsstring) :
  is_summary (error_fragment message) = false
  /\ is_unified (error_fragment message) = false
  /\ is_error (error_fragment message) = true
  /\ is_analyzing (error_fragment message) = false.
Proof. repeat split. Qed.

(** *** The loop over the leading chunks *)

Section Loop.

Variables (fileName : jsstring) (chunks : list Document) (n : nat).

Lemma LoopRun_writes k i acc evs r :
  LoopRun fileName chunks n k i acc evs r ->
  writes evs = progress fileName n i (List.length (chunk_summaries evs)).
Proof.
  unfold progress. induction 1; cbn [writes chunk_summaries List.length seq map];
    [reflexivity|reflexivity|].
  rewrite IHLoopRun. reflexivity.
Qed.

Lemma LoopRun_summarized k i acc evs r :
  LoopRun fileName chunks n k i acc evs r ->
  summarized evs
  = seq i (List.length (chunk_summaries evs) + List.length (faults evs))
  /\ List.length (chunk_summaries evs) + List.length (faults evs) <= k.
Proof.
  induction 1; cbn [summarized chunk_summaries faults List.length seq Nat.add].
  - split; [reflexivity|lia].
  - split; [reflexivity|lia].
  - destruct IHLoopRun as [E L]. rewrite E. split; [reflexivity|lia].
Qed.

Lemma LoopRun_result k i acc evs r :
  LoopRun fileName chunks n k i acc evs r ->
  match r with
  | Ok fullSummary =>
      faults evs = [] /\ summarize_faults evs = []
      /\ List.length (chunk_summaries evs) = k
      /\ fullSummary
         = fold_left (fun a t => a ++ t ++ js " ") (chunk_summaries evs) acc
  | Throw m => faults evs = [m] /\ summarize_faults evs = [m]
  end.
Proof.
  induction 1; cbn [faults summarize_faults chunk_summaries List.length fold_left].
  - auto.
  - auto.
  - destruct r as [full|m]; [|exact IHLoopRun].
    destruct IHLoopRun as (F & SF & L & E). auto.
Qed.

Lemma LoopRun_unfaulted k i acc evs r :
  LoopRun fileName chunks n k i acc evs r ->
  summarize_faults evs = [] -> exists fullSummary, r = Ok fullSummary.
Proof.
  intros H E. apply LoopRun_result in H. destruct r as [full|m]; [eauto|].
  destruct H as [_ H]. congruence.
Qed.

Lemma LoopRun_events k i acc evs r :
  LoopRun fileName chunks n k i acc evs r -> Forall loop_event evs.
Proof.
  induction 1; repeat constructor; assumption.
Qed.

Lemma LoopRun_fs k i acc evs r (ds : list jsstring) :
  LoopRun fileName chunks n k i acc evs r -> fs_apply evs ds = ds.
Proof.
  induction 1; cbn [fs_apply]; auto.
Qed.

End Loop.

Lemma progress_kinds (fileName : jsstring) (n first count : nat) :
  filter is_summary (progress fileName n first count) = []
  /\ filter is_unified (progress fileName n first count) = []
  /\ filter is_error (progress fileName n first count) = []
  /\ filter is_analyzing (progress fileName n first count)
     = progress fileName n first count.
Proof.
  unfold progress. revert first.
  induction count as [|c IH]; intros first; [repeat split|].
  destruct (IH (S first)) as (A & B & C & D).
  cbn [seq map filter].
  destruct (analyzing_kind (first + 1) n fileName) as (-> & -> & -> & ->).
  rewrite A, B, C, D. repeat split.
Qed.

Lemma progress_length (fileName : jsstring) (n first count : nat) :
  List.length (progress fileName n first count) = count.
Proof. unfold progress. rewrite length_map, length_seq. reflexivity. Qed.

End ServerFacts.

(** ** One file *)

Module FileFacts.

Import Server ServerFacts JSFacts.

Lemma processFile_events (w : World) (file : File) (s : State) r s' evs :
  processFile w file forward s = (r, s') ->
  trace s' = trace s ++ evs ->
  FileRun file evs r /\ after s evs s'.
Proof.
  intros Hrun Ht. apply processFile_run in Hrun as (evs' & A & F).
  destruct A as (T & D & S). rewrite T in Ht. apply app_inv_head in Ht.
  subst evs'. repeat split; assumption.
Qed.

(** What the [try] block contributes, read off its events. *)
Lemma TryRun_readings (file : File) evs r :
  TryRun file evs r ->
  exists n,
    let fullSummary := trim (join (js " ") (chunk_summaries evs)) in
    let shown := List.length (chunk_summaries evs) in
    writes evs
    = progress (name file) n 0 shown
        ++ match r with
           | Ok _ => [summary_for (name file) fullSummary]
           | Throw _ => []
           end
    /\ summarized evs = seq 0 (shown + List.length (summarize_faults evs))
    /\ match r with
       | Ok v => v = fullSummary /\ faults evs = []
       | Throw m => faults evs = [m]
       end
    /\ (forall chunks,
          In (Ext SplitDocuments (Docs chunks)) evs ->
          n = Nat.min (List.length chunks) 5
          /\ shown + List.length (summarize_faults evs) <= n
          /\ (summarize_faults evs = [] -> shown = n)).
Proof.
  assert (NoSplit : forall fileName chunks n k i acc lev rl o,
            LoopRun fileName chunks n k i acc lev rl ->
            ~ In (Ext SplitDocuments o) lev).
  { intros fileName chunks n k i acc lev rl o L Hin.
    apply LoopRun_events in L. rewrite Forall_forall in L.
    apply L in Hin. exact Hin. }
  destruct 1 as [path m|path docs m|path docs chunks lev m L
                |path docs chunks lev full L].
  - exists 0. cbn. refine (conj eq_refl (conj eq_refl (conj eq_refl _))).
    intros chunks [H|[]]; discriminate H.
  - exists 0. cbn. refine (conj eq_refl (conj eq_refl (conj eq_refl _))).
    intros chunks [H|[H|[]]]; discriminate H.
  - exists (Nat.min (List.length chunks) 5).
    pose proof (LoopRun_writes _ _ _ _ _ _ _ _ L) as W.
    pose proof (LoopRun_summarized _ _ _ _ _ _ _ _ L) as [Sm Le].
    pose proof (LoopRun_result _ _ _ _ _ _ _ _ L) as [F SF].
    cbn [writes chunk_summaries summarized summarize_faults faults].
    cbv zeta. rewrite W, app_nil_r, Sm, F, SF.
    refine (conj eq_refl (conj eq_refl (conj eq_refl _))).
    intros chunks' [H|[H|H]];
      [discriminate H| |destruct (NoSplit _ _ _ _ _ _ _ _ _ L H)].
    injection H as <-. rewrite F in Le.
    split; [reflexivity|]. split; [exact Le|discriminate].
  - exists (Nat.min (List.length chunks) 5).
    pose proof (LoopRun_writes _ _ _ _ _ _ _ _ L) as W.
    pose proof (LoopRun_summarized _ _ _ _ _ _ _ _ L) as [Sm Le].
    pose proof (LoopRun_result _ _ _ _ _ _ _ _ L) as (F & SF & Len & E).
    cbn [writes chunk_summaries summarized summarize_faults faults].
    cbv zeta.
    rewrite writes_app, chunk_summaries_app, summarized_app,
      summarize_faults_app, faults_app.
    cbn [writes chunk_summaries summarized summarize_faults faults].
    rewrite !app_nil_r, W, Sm, F, SF, E, trim_spaced.
    refine (conj eq_refl (conj eq_refl (conj (conj eq_refl eq_refl) _))).
    intros chunks' [H|[H|H]]; [discriminate H| |].
    2:{ apply in_app_or in H as [H|[H|[]]];
          [destruct (NoSplit _ _ _ _ _ _ _ _ _ L H)|discriminate H]. }
    injection H as <-. rewrite F in Le.
    split; [reflexivity|]. split; [exact Le|intros _; exact Len].
Qed.

(** The same for a whole run of [processFile]: [staged] tells whether the
    staging write resolved, [summed] whether the summary fragment was
    reached. *)
Lemma FileRun_readings (file : File) evs r :
  FileRun file evs r ->
  exists (n : nat) (staged summed : bool),
    let fullSummary := trim (join (js " ") (chunk_summaries evs)) in
    let shown := List.length (chunk_summaries evs) in
    writes evs
    = (if staged then [processing (name file)] else [])
        ++ progress (name file) n 0 shown
        ++ (if summed then [summary_for (name file) fullSummary] else [])
    /\ (staged = false -> shown = 0 /\ summed = false)
    /\ summarized evs = seq 0 (shown + List.length (summarize_faults evs))
    /\ (forall v, r = Ok v ->
          v = fullSummary /\ faults evs = []
          /\ staged = true /\ summed = true)
    /\ (forall m, r = Throw m -> faults evs <> [] /\ last (faults evs) [] = m)
    /\ (forall chunks,
          In (Ext SplitDocuments (Docs chunks)) evs ->
          n = Nat.min (List.length chunks) 5
          /\ shown + List.length (summarize_faults evs) <= n
          /\ (summarize_faults evs = [] -> shown = n)).
Proof.
  assert (Small : forall (P : Prop) (l : list Event) chunks,
            In (Ext SplitDocuments (Docs chunks)) l ->
            Forall (fun e => match e with
                             | Ext SplitDocuments _ => False
                             | _ => True
                             end) l -> P).
  { intros P l chunks Hin Hall. rewrite Forall_forall in Hall.
    apply Hall in Hin. destruct Hin. }
  destruct 1 as [m|prefix m|prefix tempDir path m
                |prefix tempDir path tev r T|prefix tempDir path tev r m T].
  1-3: exists 0, false, false; cbn -[In];
       (split; [reflexivity|]); (split; [auto|]); (split; [reflexivity|]);
       (split; [discriminate|]);
       (split; [intros m' [= <-]; split; [discriminate|reflexivity]|]);
       intros chunks Hin; apply (Small _ _ _ Hin); repeat constructor.
  - destruct (TryRun_readings _ _ _ T) as (n & W & Sm & R & C). cbv zeta in *.
    exists n, true, (match r with Ok _ => true | Throw _ => false end).
    cbn [writes chunk_summaries summarized summarize_faults faults]. cbv zeta.
    rewrite writes_app, chunk_summaries_app, summarized_app,
      summarize_faults_app, faults_app.
    cbn [writes chunk_summaries summarized summarize_faults faults].
    rewrite !app_nil_r, W, Sm.
    split; [destruct r; reflexivity|]. split; [discriminate|].
    split; [reflexivity|].
    split; [intros v ->; destruct R as [-> ->]; auto|].
    split; [intros m ->; rewrite R; split; [discriminate|reflexivity]|].
    intros chunks [H|[H|[H|[H|H]]]]; try discriminate H.
    apply in_app_or in H as [H|[H|[]]]; [auto|discriminate H].
  - destruct (TryRun_readings _ _ _ T) as (n & W & Sm & R & C). cbv zeta in *.
    exists n, true, (match r with Ok _ => true | Throw _ => false end).
    cbn [writes chunk_summaries summarized summarize_faults faults]. cbv zeta.
    rewrite writes_app, chunk_summaries_app, summarized_app,
      summarize_faults_app, faults_app.
    cbn [writes chunk_summaries summarized summarize_faults faults].
    rewrite !app_nil_r, W, Sm.
    split; [destruct r; reflexivity|]. split; [discriminate|].
    split; [reflexivity|].
    split; [discriminate|].
    split.
    { intros m' [= <-]. split; [destruct (faults tev); discriminate|].
      apply last_last. }
    intros chunks [H|[H|[H|[H|H]]]]; try discriminate H.
    apply in_app_or in H as [H|[H|[]]]; [auto|discriminate H].
Qed.

Lemma FileRun_closes (file : File) evs r :
  FileRun file evs r -> closes evs = 0.
Proof.
  assert (Loop : forall l, Forall loop_event l -> closes l = 0).
  { induction 1 as [|e l He _ IH]; [reflexivity|].
    destruct e as [[] o| |f|]; try destruct He; exact IH. }
  assert (Try : forall tev rt, TryRun file tev rt -> closes tev = 0).
  { destruct 1 as [| |? ? ? ? ? L|? ? ? ? ? L]; cbn [closes];
      rewrite ?closes_app; cbn [closes]; try reflexivity;
      rewrite (Loop _ (LoopRun_events _ _ _ _ _ _ _ _ L)); reflexivity. }
  destruct 1 as [| | |? ? ? ? ? T|? ? ? ? ? ? T]; cbn [closes];
    rewrite ?closes_app; cbn [closes]; try reflexivity;
    rewrite (Try _ _ T); reflexivity.
Qed.

Lemma TryRun_fs (file : File) evs r (ds : list jsstring) :
  TryRun file evs r -> fs_apply evs ds = ds.
Proof.
  destruct 1 as [| |? ? ? ? ? L|? ? ? ? ? L]; cbn [fs_apply];
    rewrite ?fs_apply_app; cbn [fs_apply]; try reflexivity;
    apply (LoopRun_fs _ _ _ _ _ _ _ _ _ L).
Qed.

Lemma TryRun_removals (file : File) evs r :
  TryRun file evs r -> removals evs = [].
Proof.
  assert (Loop : forall l, Forall loop_event l -> removals l = []).
  { induction 1 as [|e l He _ IH]; [reflexivity|].
    destruct e as [[] o| |f|]; try destruct He; exact IH. }
  destruct 1 as [| |? ? ? ? ? L|? ? ? ? ? L]; cbn [removals];
    rewrite ?removals_app; cbn [removals]; rewrite ?app_nil_r;
    try reflexivity;
    apply Loop, (LoopRun_events _ _ _ _ _ _ _ _ L).
Qed.

(** The fragments of one file are never taken for an error or for the
    unified analysis. *)
Lemma FileRun_kinds (file : File) evs r :
  FileRun file evs r ->
  filter is_error (writes evs) = [] /\ filter is_unified (writes evs) = [].
Proof.
  intros F.
  destruct (FileRun_readings _ _ _ F) as (n & staged & summed & W & _).
  cbv zeta in W. rewrite W, !filter_app.
  destruct (progress_kinds (name file) n 0 (List.length (chunk_summaries evs)))
    as (_ & -> & -> & _).
  destruct staged, summed; split; reflexivity.
Qed.

Lemma FileRun_block (file : File) evs v :
  FileRun file evs (Ok v) ->
  faults evs = [] /\ file_block file (writes evs)
  /\ filter is_summary (writes evs) = [summary_for (name file) v].
Proof.
  intros F.
  destruct (FileRun_readings _ _ _ F) as (n & staged & summed & W & _ & _ & RO & _).
  cbv zeta in *. destruct (RO v eq_refl) as (E & Fl & -> & ->).
  split; [exact Fl|]. rewrite W, <- E. split.
  - exists n, (List.length (chunk_summaries evs)), v. reflexivity.
  - rewrite !filter_app.
    destruct (progress_kinds (name file) n 0 (List.length (chunk_summaries evs)))
      as (-> & _).
    reflexivity.
Qed.

End FileFacts.

(** ** A whole request *)

Module RequestFacts.

Import Server ServerFacts JSFacts FileFacts.

Lemma FilesRun_readings (files : list File) evs r :
  FilesRun files evs r ->
  filter is_error (writes evs) = []
  /\ filter is_unified (writes evs) = []
  /\ closes evs = 0
  /\ match r with
     | Ok _ =>
         faults evs = []
         /\ exists blocks,
              writes evs = List.concat blocks
              /\ Forall2 file_block files blocks
              /\ Forall2 (fun file f =>
                            exists fullSummary,
                              f = summary_for (name file) fullSummary)
                         files (filter is_summary (writes evs))
     | Throw m => faults evs <> [] /\ last (faults evs) [] = m
     end.
Proof.
  induction 1 as [|file rest evs m F|file rest evs v evs' r F R IH].
  - repeat split. exists []. repeat split; constructor.
  - destruct (FileRun_kinds _ _ _ F) as [E U].
    destruct (FileRun_readings _ _ _ F) as (_ & _ & _ & _ & _ & _ & _ & RT & _).
    rewrite E, U, (FileRun_closes _ _ _ F). auto.
  - destruct (FileRun_kinds _ _ _ F) as [E U].
    destruct (FileRun_block _ _ _ F) as (Fl & B & Sm).
    destruct IH as (E' & U' & C' & IH).
    rewrite writes_app, !filter_app, closes_app, faults_app.
    rewrite E, U, E', U', C', (FileRun_closes _ _ _ F), Fl, Sm.
    repeat split. destruct r as [u|m]; [|exact IH].
    destruct IH as (Fl' & blocks & W' & B' & S').
    split; [exact Fl'|]. exists (writes evs :: blocks).
    split; [cbn [List.concat]; rewrite W'; reflexivity|].
    split; constructor; eauto.
Qed.

End RequestFacts.

(** ** Properties of [processFile] *)

Module FileSpec.

Import Server ServerFacts JSFacts FileFacts Scenario.

(** C7: for every uploaded file, the summary is the texts returned by the
    summarization chain, in chunk order, joined with a single space and
    trimmed; the fragment that starts with [Summary for] is exactly
    [Summary for <fileName>:\n<summary>\n\n], and it is the last fragment
    of a file whose processing returns. *)
Theorem per_file_summary_fragment (w : World) (file : File) (s : State)
    r s' evs :
  processFile w file forward s = (r, s') ->
  trace s' = trace s ++ evs ->
  let fullSummary := trim (join (js " ") (chunk_summaries evs)) in
  (forall f, In f (writes evs) -> is_summary f = true ->
             f = js "Summary for " ++ name file ++ js ":" ++ nl
                   ++ fullSummary ++ nl ++ nl)
  /\ (forall v, r = Ok v ->
        v = fullSummary
        /\ exists before,
             writes evs = before ++ [summary_for (name file) fullSummary]
             /\ filter is_summary before = [])
  /\ summarized evs = seq 0 (List.length (summarized evs)).
Proof.
  intros Hrun Ht. destruct (processFile_events _ _ _ _ _ _ Hrun Ht) as [F _].
  destruct (FileRun_readings _ _ _ F) as (n & staged & summed & W & _ & Sm & RO & _).
  cbv zeta in *. split; [|split].
  - intros f Hin Hf. rewrite W in Hin.
    apply in_app_or in Hin as [Hin|Hin].
    { destruct staged; [|destruct Hin]. destruct Hin as [<-|[]].
      destruct (processing_kind (name file)) as (E & _). congruence. }
    apply in_app_or in Hin as [Hin|Hin].
    { unfold progress in Hin. apply in_map_iff in Hin as (i & <- & _).
      destruct (analyzing_kind (i + 1) n (name file)) as (E & _). congruence. }
    destruct summed; [|destruct Hin]. destruct Hin as [<-|[]]. reflexivity.
  - intros v Hv. destruct (RO v Hv) as (-> & _ & -> & ->).
    split; [reflexivity|]. rewrite W.
    exists ([processing (name file)]
            ++ progress (name file) n 0 (List.length (chunk_summaries evs))).
    split; [rewrite <- app_assoc; reflexivity|].
    rewrite filter_app.
    destruct (progress_kinds (name file) n 0 (List.length (chunk_summaries evs)))
      as (-> & _).
    reflexivity.
  - rewrite Sm, length_seq. reflexivity.
Qed.

Lemma per_file_summary_fragment_witness :
  let run := processFile (world never (pages 2)) (pdf "a.pdf") forward (init []) in
  fst run = Ok (js "about page 1 about page 2")
  /\ exists before,
       writes (trace (snd run))
       = before ++ [js "Summary for a.pdf:" ++ nl
                      ++ js "about page 1 about page 2" ++ nl ++ nl].
Proof.
  set (w := world never (pages 2)). set (file := pdf "a.pdf").
  cbv zeta.
  destruct (@per_file_summary_fragment w file (init [])
              (fst (processFile w file forward (init [])))
              (snd (processFile w file forward (init [])))
              (trace (snd (processFile w file forward (init []))))
              (surjective_pairing _) eq_refl)
    as (_ & H & _).
  destruct (H (js "about page 1 about page 2") eq_refl) as (_ & before & E & _).
  split; [reflexivity|]. exists before. exact E.
Defined.

(** C2, as the code has it: for every uploaded file whose chunker produces
    [totalChunks] chunks, the [Analyzing section] fragments are one per
    resolved summarization call, at most [min(totalChunks, 5)] of them and
    exactly that many when no summarization call rejects; the summarization
    chain is never called on a chunk of index 5 or more. *)
Theorem analyzing_sections_per_file (w : World) (file : File) (s : State)
    r s' evs chunks :
  processFile w file forward s = (r, s') ->
  trace s' = trace s ++ evs ->
  In (Ext SplitDocuments (Docs chunks)) evs ->
  let n := Nat.min (List.length chunks) 5 in
  let sections := filter is_analyzing (writes evs) in
  sections = progress (name file) n 0 (List.length (chunk_summaries evs))
  /\ List.length sections <= n
  /\ (summarize_faults evs = [] -> List.length sections = n)
  /\ Forall (fun i => i < 5 /\ i < List.length chunks) (summarized evs).
Proof.
  intros Hrun Ht Hin. destruct (processFile_events _ _ _ _ _ _ Hrun Ht) as [F _].
  destruct (FileRun_readings _ _ _ F) as (n & staged & summed & W & _ & Sm & _ & _ & C).
  cbv zeta in *. destruct (C chunks Hin) as (-> & Le & Eq).
  assert (E : filter is_analyzing (writes evs)
              = progress (name file) (Nat.min (List.length chunks) 5) 0
                  (List.length (chunk_summaries evs))).
  { rewrite W, !filter_app.
    destruct (progress_kinds (name file) (Nat.min (List.length chunks) 5) 0
                (List.length (chunk_summaries evs))) as (_ & _ & _ & ->).
    destruct staged, summed; cbn [filter];
      rewrite ?(proj2 (proj2 (proj2 (processing_kind (name file))))),
        ?(proj2 (proj2 (proj2 (summary_for_kind (name file) _))));
      rewrite ?app_nil_r; reflexivity. }
  rewrite E, progress_length. split; [reflexivity|]. split; [lia|].
  split; [exact Eq|].
  rewrite Sm. apply Forall_forall. intros i Hi. apply in_seq in Hi. lia.
Qed.

Lemma analyzing_sections_per_file_witness :
  let run := processFile (world never (pages 7)) (pdf "a.pdf") forward (init []) in
  List.length (filter is_analyzing (writes (trace (snd run)))) = 5
  /\ Forall (fun i => i < 5 /\ i < 7) (summarized (trace (snd run))).
Proof.
  set (w := world never (pages 7)). set (file := pdf "a.pdf").
  cbv zeta.
  assert (Hin : In (Ext SplitDocuments (Docs (pages 7)))
                  (trace (snd (processFile w file forward (init []))))).
  { vm_compute. do 5 right. left. reflexivity. }
  destruct (@analyzing_sections_per_file w file (init [])
              (fst (processFile w file forward (init [])))
              (snd (processFile w file forward (init [])))
              (trace (snd (processFile w file forward (init []))))
              (pages 7)
              (surjective_pairing _) eq_refl Hin)
    as (_ & _ & Eq & All).
  split; [apply Eq; reflexivity|exact All].
Defined.

(** C2 as stated fails when a summarization call rejects: with three chunks
    and a rejection of the second call, one progress fragment is emitted
    instead of three. *)
Lemma analyzing_sections_counterexample :
  let run := processFile (world (once 6 "rate limit") (pages 3)) (pdf "a.pdf")
               forward (init []) in
  In (Ext SplitDocuments (Docs (pages 3))) (trace (snd run))
  /\ List.length (filter is_analyzing (writes (trace (snd run)))) = 1
  /\ Nat.min (List.length (pages 3)) 5 = 3
  /\ List.length (filter is_analyzing (writes (trace (snd run))))
     <> Nat.min (List.length (pages 3)) 5.
Proof.
  cbv zeta. split; [vm_compute; do 5 right; left; reflexivity|].
  split; [reflexivity|]. split; [reflexivity|]. vm_compute. discriminate.
Qed.

End FileSpec.

(** ** Properties of the route *)

Module RouteSpec.

Import Server ServerFacts JSFacts FileFacts RequestFacts Scenario.

Lemma POST_events (w : World) (data : FormData) (s : State) r s' evs :
  POST w {| formData := Ok data |} s = (r, s') ->
  trace s' = trace s ++ evs ->
  getAll (js "files") data <> [] ->
  exists wev,
    evs = Opened :: wev
    /\ WorkerRun (getAll (js "files") data) wev
    /\ r = Ok {| status := 200; body := BodyStream;
                 contentType := Some (js "text/plain; charset=utf-8") |}
    /\ dirs s' = fs_apply wev (dirs s).
Proof.
  intros Hrun Ht Hfiles.
  destruct (POST_run w data s Hfiles) as (s1 & wev & Hp & R & T & D).
  rewrite Hp in Hrun. injection Hrun as <- <-.
  rewrite T in Ht. apply app_inv_head in Ht. subst evs.
  exists wev. auto.
Qed.

Lemma POST_status (w : World) (data : FormData) (s : State) response s' :
  POST w {| formData := Ok data |} s = (Ok response, s') ->
  status response = 200 ->
  getAll (js "files") data <> [].
Proof.
  intros Hrun Hs Hnil. rewrite (POST_no_files w data s Hnil) in Hrun.
  injection Hrun as <- _. discriminate Hs.
Qed.

(** C5: a POST request whose form data has no entry in the [files] field is
    answered with status 400 and the body [No files uploaded]; the state is
    left as it was: no event is recorded, so no stream is opened and nothing
    is written. *)
Theorem no_files_rejected (w : World) (data : FormData) (s : State) :
  getAll (js "files") data = [] ->
  POST w {| formData := Ok data |} s
  = (Ok {| status := 400; body := BodyText (js "No files uploaded");
           contentType := None |}, s).
Proof. apply POST_no_files. Qed.

Lemma no_files_rejected_witness :
  let w := world never (pages 1) in
  let data := [(js "note", pdf "a.pdf"); (js "file", pdf "b.pdf")] in
  getAll (js "files") data = []
  /\ POST w {| formData := Ok data |} (init [])
     = (Ok {| status := 400; body := BodyText (js "No files uploaded");
              contentType := None |}, init []).
Proof.
  cbv zeta. split; [reflexivity|].
  apply (no_files_rejected (world never (pages 1))
           [(js "note", pdf "a.pdf"); (js "file", pdf "b.pdf")] (init [])).
  reflexivity.
Defined.

(** C1, with the fragments told apart by how they start: a successful
    request with N files writes, for each file in the order of the form
    data, its [Processing] line, its progress lines and its
    [Summary for] fragment, then the synthesis line and one
    [Unified Analysis:] fragment, and then closes the stream.  So exactly N
    fragments start with [Summary for], one per file and in order, exactly
    one starts with [Unified Analysis:], and it is the last one written. *)
Theorem successful_request_stream (w : World) (data : FormData) (s : State)
    response s' evs :
  POST w {| formData := Ok data |} s = (Ok response, s') ->
  trace s' = trace s ++ evs ->
  status response = 200 ->
  faults evs = [] ->
  let files := getAll (js "files") data in
  exists blocks text before,
    writes evs = List.concat blocks ++ [synthesizing; unified_analysis text]
    /\ Forall2 file_block files blocks
    /\ Forall2 (fun file f =>
                  exists fullSummary, f = summary_for (name file) fullSummary)
               files (filter is_summary (writes evs))
    /\ List.length (filter is_summary (writes evs)) = List.length files
    /\ filter is_unified (writes evs) = [unified_analysis text]
    /\ evs = before ++ [Wrote (unified_analysis text); Closed]
    /\ closes before = 0.
Proof.
  intros Hrun Ht Hs Hf. cbv zeta.
  pose proof (POST_status _ _ _ _ _ Hrun Hs) as Hfiles.
  destruct (POST_events _ _ _ _ _ _ Hrun Ht Hfiles) as (wev & -> & R & _ & _).
  cbn [faults] in Hf.
  destruct R as [fev m R|fev m R|fev text R];
    destruct (FilesRun_readings _ _ _ R) as (E & U & C & RR).
  - rewrite faults_app in Hf. cbn [faults] in Hf. rewrite app_nil_r in Hf.
    destruct RR as [RR _]. contradiction.
  - rewrite faults_app in Hf. cbn [faults] in Hf.
    destruct (faults fev); discriminate Hf.
  - destruct RR as (_ & blocks & W & B & S).
    exists blocks, text, (Opened :: fev ++ [Wrote synthesizing;
              Ext (Synthesize (join nl (filter is_summary (writes fev))))
                  (Text text)]).
    cbn [writes]. rewrite writes_app, !filter_app. cbn [writes].
    rewrite W in *. cbn [filter].
    destruct synthesizing_kind as (-> & -> & _).
    destruct (unified_analysis_kind text) as (-> & -> & _).
    rewrite app_nil_r, U. cbn [app].
    split; [reflexivity|]. split; [exact B|]. split; [exact S|].
    split; [symmetry; eapply Forall2_length; exact S|].
    split; [reflexivity|]. split.
    + cbn [app]. rewrite <- app_assoc. reflexivity.
    + cbn [closes]. rewrite closes_app, C. reflexivity.
Qed.

Lemma successful_request_stream_witness :
  let run := POST (world never (pages 3)) (upload ["a.pdf"; "b.pdf"]%string) (init []) in
  exists blocks text before,
    writes (trace (snd run))
    = List.concat blocks ++ [synthesizing; unified_analysis text]
    /\ List.length (filter is_summary (writes (trace (snd run)))) = 2
    /\ trace (snd run) = before ++ [Wrote (unified_analysis text); Closed].
Proof.
  cbv zeta.
  set (w := world never (pages 3)).
  set (data := map (fun n => (js "files", pdf n)) ["a.pdf"; "b.pdf"]%string).
  destruct (@successful_request_stream w data (init [])
              {| status := 200; body := BodyStream;
                 contentType := Some (js "text/plain; charset=utf-8") |}
              (snd (POST w {| formData := Ok data |} (init [])))
              (trace (snd (POST w {| formData := Ok data |} (init []))))
              ltac:(vm_compute; reflexivity) eq_refl eq_refl
              ltac:(vm_compute; reflexivity))
    as (blocks & text & before & W & _ & _ & L & _ & E & _).
  exists blocks, text, before. split; [exact W|]. split; [exact L|exact E].
Defined.

(** C1 as stated counts the fragments that contain the marker.  A file
    name is copied into three fragments of its file, so a file called
    [Summary for Q3.pdf] alone gives three fragments that contain
    [Summary for]. *)
Lemma marker_in_file_name_counterexample :
  let data := [(js "files", pdf "Summary for Q3.pdf")] in
  let run := POST (world never (pages 1)) {| formData := Ok data |} (init []) in
  faults (trace (snd run)) = []
  /\ List.length (getAll (js "files") data) = 1
  /\ List.length
       (filter (includes (js "Summary for")) (writes (trace (snd run)))) = 3
  /\ List.length
       (filter (includes (js "Summary for")) (writes (trace (snd run))))
     <> List.length (getAll (js "files") data).
Proof.
  cbv zeta. split; [vm_compute; reflexivity|]. split; [reflexivity|].
  split; [vm_compute; reflexivity|]. vm_compute. discriminate.
Qed.

(** C4: a request with files closes its stream exactly once, as its last
    event, on every path.  When some external call rejected, exactly one
    [Error: <message>] fragment is written, after the fragments already
    streamed and as the last one, with the message of the rejection that
    ended the worker, and no [Unified Analysis:] fragment is written; when
    none rejected, no [Error:] fragment is written. *)
Theorem faulted_request_stream (w : World) (data : FormData) (s : State)
    r s' evs :
  POST w {| formData := Ok data |} s = (r, s') ->
  trace s' = trace s ++ evs ->
  getAll (js "files") data <> [] ->
  closes evs = 1
  /\ (exists before, evs = before ++ [Closed])
  /\ (faults evs <> [] ->
      exists partial before,
        writes evs = partial ++ [error_fragment (last (faults evs) [])]
        /\ filter is_error partial = []
        /\ filter is_error (writes evs)
           = [js "Error: " ++ last (faults evs) [] ++ nl]
        /\ filter is_unified (writes evs) = []
        /\ evs = before
                   ++ [Wrote (error_fragment (last (faults evs) [])); Closed])
  /\ (faults evs = [] -> filter is_error (writes evs) = []).
Proof.
  intros Hrun Ht Hfiles.
  destruct (POST_events _ _ _ _ _ _ Hrun Ht Hfiles) as (wev & -> & R & _ & _).
  cbn [closes faults writes].
  destruct R as [fev m R|fev m R|fev text R];
    destruct (FilesRun_readings _ _ _ R) as (E & U & C & RR);
    rewrite closes_app, faults_app, writes_app, !filter_app, C, E, U;
    cbn [closes faults writes filter app].
  - destruct RR as [Hne <-]. rewrite app_nil_r.
    destruct (error_fragment_kind (last (faults fev) [])) as (_ & -> & -> & _).
    split; [reflexivity|].
    split; [exists (Opened :: fev ++ [Wrote (error_fragment (last (faults fev) []))]);
            cbn [app]; rewrite <- app_assoc; reflexivity|].
    split; [|intros Hnil; contradiction].
    intros _. exists (writes fev), (Opened :: fev).
    split; [reflexivity|]. split; [exact E|]. split; [reflexivity|].
    split; reflexivity.
  - destruct RR as (Hnil & _). rewrite Hnil. cbn [app last].
    destruct (error_fragment_kind m) as (_ & -> & -> & _).
    destruct synthesizing_kind as (_ & -> & -> & _).
    split; [reflexivity|].
    split; [eexists (Opened :: fev ++ [_; _; _]);
            cbn [app]; rewrite <- app_assoc; reflexivity|].
    split; [|discriminate].
    intros _. exists (writes fev ++ [synthesizing]).
    exists (Opened :: fev
                ++ [Wrote synthesizing;
                    Ext (Synthesize (join nl (filter is_summary (writes fev))))
                        (Fault m)]).
    rewrite filter_app, E. cbn [app filter].
    destruct synthesizing_kind as (_ & _ & -> & _).
    split; [rewrite <- app_assoc; reflexivity|].
    split; [reflexivity|]. split; [reflexivity|]. split; [reflexivity|].
    rewrite <- app_assoc. reflexivity.
  - destruct RR as (Hnil & _). rewrite Hnil. cbn [app].
    destruct (unified_analysis_kind text) as (_ & _ & -> & _).
    destruct synthesizing_kind as (_ & _ & -> & _).
    split; [reflexivity|].
    split; [eexists (Opened :: fev ++ [_; _; _]);
            cbn [app]; rewrite <- app_assoc; reflexivity|].
    split; [intros Hne; contradiction|reflexivity].
Qed.

Lemma faulted_request_stream_witness :
  let run := POST (world (once 14 "quota exceeded") (pages 3))
               (upload ["a.pdf"; "b.pdf"]%string) (init []) in
  getAll (js "files")
    [(js "files", pdf "a.pdf"); (js "files", pdf "b.pdf")] <> []
  /\ closes (trace (snd run)) = 1
  /\ filter is_error (writes (trace (snd run)))
     = [js "Error: quota exceeded" ++ nl]
  /\ filter is_unified (writes (trace (snd run))) = []
  /\ List.length (filter is_summary (writes (trace (snd run)))) = 1.
Proof.
  cbv zeta.
  set (w := world (once 14 "quota exceeded") (pages 3)).
  set (data := [(js "files", pdf "a.pdf"); (js "files", pdf "b.pdf")]).
  assert (Hfiles : getAll (js "files") data <> []) by (vm_compute; discriminate).
  destruct (@faulted_request_stream w data (init [])
              (fst (POST w {| formData := Ok data |} (init [])))
              (snd (POST w {| formData := Ok data |} (init [])))
              (trace (snd (POST w {| formData := Ok data |} (init []))))
              (surjective_pairing _) eq_refl Hfiles)
    as (C & _ & F & _).
  destruct F as (partial & before & _ & _ & E & U & _);
    [vm_compute; discriminate|].
  split; [exact Hfiles|]. split; [exact C|]. split; [exact E|].
  split; [exact U|]. vm_compute. reflexivity.
Defined.

(** *** The staging directory *)

Lemma TryRun_events (file : File) evs r :
  TryRun file evs r -> Forall try_event evs.
Proof.
  assert (Loop : forall l, Forall loop_event l -> Forall try_event l).
  { intros l H. eapply Forall_impl; [|exact H].
    intros [[] o| |f|] He; try destruct He; exact I. }
  destruct 1 as [| |? ? ? ? ? L|? ? ? ? ? L]; repeat constructor;
    rewrite ?Forall_app; repeat split; repeat constructor;
    apply Loop, (LoopRun_events _ _ _ _ _ _ _ _ L).
Qed.

(** When the staging write rejects, [processFile] ends without calling
    [fs.rm]: the directory that [fs.mkdtemp] made is still there. *)
Lemma unstaged_directory_survives (w : World) (file : File) (s : State)
    r s' evs path m :
  processFile w file forward s = (r, s') ->
  trace s' = trace s ++ evs ->
  In (Ext (WriteFile path) (Fault m)) evs ->
  exists prefix tempDir,
    In (Ext (Mkdtemp prefix) (Text tempDir)) evs
    /\ removals evs = []
    /\ In tempDir (dirs s')
    /\ r = Throw m.
Proof.
  intros Hrun Ht Hin.
  destruct (processFile_events _ _ _ _ _ _ Hrun Ht) as [F (_ & D & _)].
  destruct F as [m'|prefix m'|prefix tempDir path' m'
                |prefix tempDir path' tev r T|prefix tempDir path' tev r m' T].
  1-2: cbn [In] in Hin; repeat (destruct Hin as [Hin|Hin]; try discriminate Hin);
       destruct Hin.
  - destruct Hin as [Hin|[Hin|[Hin|[]]]]; try discriminate Hin.
    injection Hin as _ <-.
    exists prefix, tempDir. split; [right; left; reflexivity|].
    split; [reflexivity|]. split; [|reflexivity].
    rewrite D. cbn [fs_apply]. left. reflexivity.
  - exfalso. pose proof (TryRun_events _ _ _ T) as Hev.
    do 4 (destruct Hin as [Hin|Hin]; [discriminate Hin|]).
    apply in_app_or in Hin as [Hin|[Hin|[]]]; [|discriminate Hin].
    rewrite Forall_forall in Hev. apply (Hev _ Hin).
  - exfalso. pose proof (TryRun_events _ _ _ T) as Hev.
    do 4 (destruct Hin as [Hin|Hin]; [discriminate Hin|]).
    apply in_app_or in Hin as [Hin|[Hin|[]]]; [|discriminate Hin].
    rewrite Forall_forall in Hev. apply (Hev _ Hin).
Qed.

(** C3 at its failing input: the staging write of the only file rejects
    (disk full).  The request ends with the error fragment and a closed
    stream, [fs.rm] was never called, and the staging directory made for
    the file is still there. *)
Theorem staging_write_fault_leaves_directory :
  let run := POST (world (once 2 "ENOSPC") (pages 1))
               (upload ["a.pdf"]%string) (init []) in
  In (Ext (Mkdtemp (js "/tmp/pdf-upload-")) (Text (js "/tmp/pdf-upload-1")))
     (trace (snd run))
  /\ In (Ext (WriteFile (js "/tmp/pdf-upload-1/a.pdf")) (Fault (js "ENOSPC")))
        (trace (snd run))
  /\ writes (trace (snd run)) = [error_fragment (js "ENOSPC")]
  /\ closes (trace (snd run)) = 1
  /\ removals (trace (snd run)) = []
  /\ dirs (snd run) = [js "/tmp/pdf-upload-1"].
Proof.
  cbv zeta. vm_compute.
  split; [do 2 right; left; reflexivity|].
  split; [do 3 right; left; reflexivity|].
  repeat split; reflexivity.
Qed.

(** C9: the credential is looked up once, when the module is evaluated
    (lines 13 to 17 of the route): evaluation throws exactly when the
    credential is absent or is the empty string, and otherwise gives the
    handler [POST], which does not look at the environment.  In the process
    modelled from the specification, a module that throws means that no
    request is answered and nothing happens, no stream and no [Error:]
    fragment; with a credential the requests are answered by [POST]. *)
Theorem missing_credential_is_fatal (w : World) (env : Env)
    (requests : list Request) (s : State) :
  (route_module env = Throw missing_key
   <-> env (js "OPENAI_API_KEY") = None
       \/ env (js "OPENAI_API_KEY") = Some [])
  /\ (forall key,
        env (js "OPENAI_API_KEY") = Some key -> key <> [] ->
        route_module env = Ok POST)
  /\ (env (js "OPENAI_API_KEY") = None
       \/ env (js "OPENAI_API_KEY") = Some [] ->
      serve w env requests s = (Throw missing_key, s))
  /\ (forall key,
        env (js "OPENAI_API_KEY") = Some key -> key <> [] ->
        serve w env requests s
        = (Ok (fst (serve_requests (POST w) requests s)),
           snd (serve_requests (POST w) requests s))).
Proof.
  unfold serve, route_module.
  destruct (env (js "OPENAI_API_KEY")) as [[|c key]|] eqn:E; cbn [truthy].
  - split; [split; auto|]. split; [intros k [= <-] H; congruence|].
    split; [reflexivity|]. intros k [= <-] H. congruence.
  - split.
    { split; [discriminate|]. intros [H|H]; discriminate H. }
    split; [reflexivity|].
    split; [intros [H|H]; discriminate H|].
    intros k _ _. destruct (serve_requests (POST w) requests s). reflexivity.
  - split; [split; auto|]. split; [discriminate|].
    split; [reflexivity|]. discriminate.
Qed.

Lemma missing_credential_is_fatal_witness :
  let unset : Env := fun _ => None in
  let empty : Env := fun _ => Some [] in
  serve (world never (pages 1)) unset [upload ["a.pdf"]%string] (init [])
  = (Throw missing_key, init [])
  /\ serve (world never (pages 1)) empty [upload ["a.pdf"]%string] (init [])
     = (Throw missing_key, init []).
Proof.
  cbv zeta. split.
  - apply (proj1 (proj2 (proj2
             (missing_credential_is_fatal (world never (pages 1))
                (fun _ => None) [upload ["a.pdf"]%string] (init []))))).
    left. reflexivity.
  - apply (proj1 (proj2 (proj2
             (missing_credential_is_fatal (world never (pages 1))
                (fun _ => Some []) [upload ["a.pdf"]%string] (init []))))).
    right. reflexivity.
Defined.

End RouteSpec.

(** ** Properties of the client *)

Module ClientSpec.

Import Server Client JSFacts Scenario.

Lemma following_found (m s rest : jsstring) :
  following m s = Some rest -> exists pre, s = pre ++ m ++ rest.
Proof.
  unfold following. destruct (indexOf m s) as [i|] eqn:E; [|discriminate].
  intros [= <-]. exists (firstn i s). apply indexOf_found, E.
Qed.

Lemma includes_following (m s : jsstring) :
  includes m s = true -> exists rest, following m s = Some rest.
Proof.
  unfold includes, following. destruct (indexOf m s); [eauto|discriminate].
Qed.

Lemma summaryMarker_nonempty : summaryMarker <> [].
Proof. discriminate. Qed.

Lemma unifiedMarker_nonempty : unifiedMarker <> [].
Proof. discriminate. Qed.

(** The second [if] never meets [undefined]: the accumulated text ends with
    the chunk that contains the marker. *)
Lemma read_chunk_normal (chunk : jsstring) (r : Reader) :
  exists r', read_chunk chunk r = (r', Normal).
Proof.
  unfold read_chunk, on_unified_marker.
  destruct (includes unifiedMarker chunk) eqn:E; [|eauto].
  assert (A : accumulatedText (on_summary_marker chunk (receive chunk r))
              = accumulatedText r ++ chunk).
  { unfold on_summary_marker.
    destruct (includes summaryMarker chunk); [reflexivity|].
    destruct (truthy (currentSummary (receive chunk r))); reflexivity. }
  rewrite A.
  destruct (includes_following _ _ (includes_app_l _ (accumulatedText r) _ E))
    as (rest & F).
  rewrite (split_at1 _ _ _ unifiedMarker_nonempty F). eauto.
Qed.

(** C6, as the code has it.  When a chunk contains [Summary for], a
    non-empty summary in progress is pushed, trimmed, onto the summaries,
    and the new summary in progress is the text after the first
    [Summary for] of the chunk up to the next [Summary for] of the chunk,
    all of the text after it when there is no other.  When a chunk contains
    [Unified Analysis:], a non-empty summary in progress is pushed, trimmed,
    and the result is published with, as unified analysis, the trimmed text
    after the first [Unified Analysis:] of the accumulated text up to the
    next one, all of the text after it when there is no other. *)
Theorem marker_driven_parsing (chunk : jsstring) (r : Reader) :
  (includes summaryMarker chunk = true ->
   exists pre rest,
     chunk = pre ++ summaryMarker ++ rest
     /\ following summaryMarker chunk = Some rest
     /\ summaries (on_summary_marker chunk r)
        = summaries r
            ++ (if truthy (currentSummary r) then [trim (currentSummary r)]
                else [])
     /\ currentSummary (on_summary_marker chunk r) = upto summaryMarker rest
     /\ (includes summaryMarker rest = false ->
         currentSummary (on_summary_marker chunk r) = rest))
  /\ (includes unifiedMarker chunk = true ->
      let r1 := on_summary_marker chunk (receive chunk r) in
      exists pre rest r',
        accumulatedText r ++ chunk = pre ++ unifiedMarker ++ rest
        /\ following unifiedMarker (accumulatedText r ++ chunk) = Some rest
        /\ read_chunk chunk r = (r', Normal)
        /\ summaries r'
           = summaries r1
               ++ (if truthy (currentSummary r1) then [trim (currentSummary r1)]
                   else [])
        /\ result_of r'
           = Some {| result_summaries := summaries r';
                     unifiedAnalysis := trim (upto unifiedMarker rest) |}
        /\ (includes unifiedMarker rest = false ->
            published r' = Some (trim rest))).
Proof.
  split.
  - intros H. destruct (includes_following _ _ H) as (rest & F).
    destruct (following_found _ _ _ F) as (pre & E).
    exists pre, rest. split; [exact E|]. split; [exact F|].
    unfold on_summary_marker. rewrite H.
    rewrite (split_at1 _ _ _ summaryMarker_nonempty F).
    cbn [summaries currentSummary]. unfold finalize.
    split; [destruct (truthy (currentSummary r)); rewrite ?app_nil_r; reflexivity|].
    split; [reflexivity|]. intros Hn. apply upto_absent, Hn.
  - intros H. cbv zeta.
    destruct (includes_following _ _ (includes_app_l _ (accumulatedText r) _ H))
      as (rest & F).
    destruct (following_found _ _ _ F) as (pre & E).
    assert (A : accumulatedText (on_summary_marker chunk (receive chunk r))
                = accumulatedText r ++ chunk).
    { unfold on_summary_marker.
      destruct (includes summaryMarker chunk); [reflexivity|].
      destruct (truthy (currentSummary (receive chunk r))); reflexivity. }
    exists pre, rest. unfold read_chunk, on_unified_marker.
    rewrite H, A, (split_at1 _ _ _ unifiedMarker_nonempty F).
    eexists. split; [exact E|]. split; [exact F|]. split; [reflexivity|].
    unfold result_of. cbn [summaries published]. unfold finalize.
    split; [destruct (truthy (currentSummary _)); rewrite ?app_nil_r; reflexivity|].
    split; [reflexivity|]. intros Hn. rewrite (upto_absent _ _ Hn). reflexivity.
Qed.

Lemma marker_driven_parsing_witness :
  let chunk := js "Summary for a.pdf:x" ++ nl ++ js "Unified Analysis: y " in
  includes summaryMarker chunk = true
  /\ includes unifiedMarker chunk = true
  /\ currentSummary (on_summary_marker chunk (start []))
     = js " a.pdf:x" ++ nl ++ js "Unified Analysis: y "
  /\ exists r', read_chunk chunk (start []) = (r', Normal)
               /\ published r' = Some (js "y").
Proof.
  cbv zeta.
  set (chunk := js "Summary for a.pdf:x" ++ nl ++ js "Unified Analysis: y ").
  assert (H1 : includes summaryMarker chunk = true) by reflexivity.
  assert (H2 : includes unifiedMarker chunk = true) by reflexivity.
  destruct (marker_driven_parsing chunk (start [])) as [S U].
  destruct (S H1) as (pre & rest & _ & F & _ & _ & C).
  destruct (U H2) as (pre' & rest' & r' & _ & F' & R & _ & _ & P).
  injection F as <-. injection F' as <-.
  split; [exact H1|]. split; [exact H2|].
  split; [apply C; reflexivity|].
  exists r'. split; [exact R|]. apply P. reflexivity.
Defined.

(** C6 as stated takes the text following the marker.  For the fragment
    the server writes for a file called [Summary for Q3.pdf], the text that
    follows the first marker is the rest of the fragment, but the summary in
    progress becomes the single space between the first two markers. *)
Lemma second_marker_counterexample :
  let chunk := summary_for (js "Summary for Q3.pdf") (js "about page 1") in
  let rest := js " Summary for Q3.pdf:" ++ nl ++ js "about page 1" ++ nl ++ nl in
  includes summaryMarker chunk = true
  /\ chunk = summaryMarker ++ rest
  /\ following summaryMarker chunk = Some rest
  /\ currentSummary (on_summary_marker chunk (start [])) = js " "
  /\ currentSummary (on_summary_marker chunk (start [])) <> rest.
Proof.
  cbv zeta. repeat split; try reflexivity. vm_compute. discriminate.
Qed.

(** *** The read loop *)

Lemma on_summary_marker_keeps (chunk : jsstring) (r : Reader) :
  progressText (on_summary_marker chunk r) = progressText r
  /\ published (on_summary_marker chunk r) = published r
  /\ accumulatedText (on_summary_marker chunk r) = accumulatedText r.
Proof.
  unfold on_summary_marker.
  destruct (includes summaryMarker chunk); [repeat split|].
  destruct (truthy (currentSummary r)); repeat split.
Qed.

Lemma read_chunk_progress (chunk : jsstring) (r r' : Reader) c :
  read_chunk chunk r = (r', c) ->
  progressText r' = progressText r ++ chunk.
Proof.
  unfold read_chunk, on_unified_marker.
  destruct (on_summary_marker_keeps chunk (receive chunk r)) as (P & _).
  destruct (includes unifiedMarker chunk).
  - destruct (nth_error _ 1); intros [= <- _]; exact P.
  - intros [= <- _]. exact P.
Qed.

Lemma read_chunk_unpublished (chunk : jsstring) (r r' : Reader) c :
  includes unifiedMarker chunk = false ->
  read_chunk chunk r = (r', c) ->
  published r' = published r.
Proof.
  unfold read_chunk, on_unified_marker. intros ->.
  destruct (on_summary_marker_keeps chunk (receive chunk r)) as (_ & P & _).
  intros [= <- _]. exact P.
Qed.

Lemma read_loop_finished (body : list jsstring) :
  forall r, exists r',
    read_loop body Finished r = (r', Normal)
    /\ progressText r' = progressText r ++ List.concat body.
Proof.
  induction body as [|chunk rest IH]; intros r; cbn [read_loop List.concat].
  - exists r. rewrite app_nil_r. auto.
  - destruct (read_chunk_normal chunk r) as (r1 & H1). rewrite H1.
    destruct (IH r1) as (r' & H & P). exists r'. split; [exact H|].
    rewrite P, (read_chunk_progress _ _ _ _ H1), app_assoc. reflexivity.
Qed.

Lemma read_loop_unpublished (body : list jsstring) (e : StreamEnd) :
  forall r r' c,
    Forall (fun chunk => includes unifiedMarker chunk = false) body ->
    read_loop body e r = (r', c) ->
    published r' = published r.
Proof.
  induction body as [|chunk rest IH]; intros r r' c Hall; cbn [read_loop].
  - destruct e; intros [= <- _]; reflexivity.
  - inversion Hall as [|? ? Hc Hrest]; subst.
    destruct (read_chunk chunk r) as [r1 [|x]] eqn:H1.
    + intros H. rewrite (IH _ _ _ Hrest H).
      apply (read_chunk_unpublished _ _ _ _ Hc H1).
    + intros [= <- _]. apply (read_chunk_unpublished _ _ _ _ Hc H1).
Qed.

(** C10, as the code has it: when no chunk of the response contains
    [Unified Analysis:], the client ends with [results] null, however the
    stream ends and whatever state it started from; the results view is not
    rendered, so the summary text accumulated from [Summary for] fragments
    is not displayed. *)
Theorem no_marker_no_result (ui : UI) (response : HttpResponse) :
  Forall (fun chunk => includes unifiedMarker chunk = false)
         (chunks response) ->
  results (generateAnalysis (Responded response) ui) = None
  /\ resultsView (render (generateAnalysis (Responded response) ui)) = None.
Proof.
  intros Hall.
  assert (R : results (generateAnalysis (Responded response) ui) = None).
  { unfold generateAnalysis, generateAnalysis_try.
    destruct (ok response).
    - destruct (read_loop (chunks response) (ending response) _)
        as [r c] eqn:H.
      pose proof (read_loop_unpublished _ _ _ _ _ Hall H) as P.
      cbn [published start] in P.
      destruct c as [|[m|]]; cbn [results]; unfold result_of; rewrite P;
        reflexivity.
    - reflexivity. }
  split; [exact R|]. unfold render. cbn [resultsView]. rewrite R. reflexivity.
Qed.

Lemma no_marker_no_result_witness :
  let body := [processing (js "a.pdf");
               summary_for (js "a.pdf") (js "about page 1");
               error_fragment (js "quota exceeded")] in
  let response := {| status := 200; statusText := js "OK"; chunks := body;
                     ending := Finished |} in
  Forall (fun chunk => includes unifiedMarker chunk = false) body
  /\ currentSummary (fst (read_loop body Finished (start []))) <> []
  /\ results (generateAnalysis (Responded response) blank) = None
  /\ resultsView (render (generateAnalysis (Responded response) blank)) = None.
Proof.
  cbv zeta.
  assert (H : Forall (fun chunk => includes unifiedMarker chunk = false)
                [processing (js "a.pdf");
                 summary_for (js "a.pdf") (js "about page 1");
                 error_fragment (js "quota exceeded")])
    by (repeat constructor).
  split; [exact H|]. split; [vm_compute; discriminate|].
  apply (no_marker_no_result blank
           {| status := 200; statusText := js "OK";
              chunks := [processing (js "a.pdf");
                         summary_for (js "a.pdf") (js "about page 1");
                         error_fragment (js "quota exceeded")];
              ending := Finished |}).
  exact H.
Defined.

(** C10 as stated takes every stream that an [Error:] fragment ends for a
    stream with no chunk containing the marker.  The file is called
    [Unified Analysis: Q3.pdf] and its first summarization call rejects:
    the server writes no fragment that starts with [Unified Analysis:],
    the stream ends with the [Error:] fragment, and the [Processing]
    fragment, which has the file name in it, makes the client publish a
    result. *)
Lemma error_terminated_stream_counterexample :
  let served := POST (world (once 5 "quota exceeded") (pages 1))
                  (upload ["Unified Analysis: Q3.pdf"]%string) (init []) in
  let body := writes (trace (snd served)) in
  let response := {| status := 200; statusText := js "OK"; chunks := body;
                     ending := Finished |} in
  let ui' := generateAnalysis (Responded response) blank in
  body = [processing (js "Unified Analysis: Q3.pdf");
          error_fragment (js "quota exceeded")]
  /\ filter is_unified body = []
  /\ results ui'
     = Some {| result_summaries := []; unifiedAnalysis := js "Q3.pdf..." |}
  /\ results ui' <> None
  /\ resultsView (render ui') = Some ([], js "Q3.pdf...").
Proof.
  cbv zeta. split; [vm_compute; reflexivity|].
  split; [vm_compute; reflexivity|].
  split; [vm_compute; reflexivity|].
  split; [vm_compute; discriminate|]. vm_compute. reflexivity.
Qed.

(** C8, as the code has it: when the response is OK and its stream ends,
    every fragment that arrived, an [Error: <message>] fragment included,
    is shown inline in the progress log, and the alert element is not
    rendered: the [error] state stays null. *)
Theorem streamed_error_only_in_log (ui : UI) (response : HttpResponse)
    (fragment : jsstring) :
  ok response = true ->
  ending response = Finished ->
  In fragment (chunks response) ->
  let ui' := generateAnalysis (Responded response) ui in
  includes fragment (scientificProcess ui') = true
  /\ progressLog (render ui') = Some (scientificProcess ui')
  /\ error ui' = None
  /\ alert (render ui') = None.
Proof.
  intros Hok Hend Hin. cbv zeta.
  unfold generateAnalysis, generateAnalysis_try. rewrite Hok, Hend.
  destruct (read_loop_finished (chunks response)
              (start (js "Initiating analysis of "
                        ++ ofNat (List.length (files ui)) ++ js " files...")))
    as (r' & -> & P).
  cbn [progressText start] in P.
  unfold render. cbn [scientificProcess error alert progressLog].
  rewrite P. split; [|split; [reflexivity|split; reflexivity]].
  apply in_split in Hin as (l1 & l2 & ->).
  rewrite concat_app. cbn [List.concat].
  rewrite <- !app_assoc.
  rewrite (app_assoc (js "Initiating analysis of ")).
  rewrite (app_assoc _ (js " files...")).
  rewrite (app_assoc _ (List.concat l1)).
  apply includes_app.
Qed.

Lemma streamed_error_only_in_log_witness :
  let response := {| status := 200; statusText := js "OK";
                     chunks := [processing (js "a.pdf");
                                error_fragment (js "quota exceeded")];
                     ending := Finished |} in
  let ui' := generateAnalysis (Responded response) blank in
  includes (js "Error: quota exceeded" ++ nl) (scientificProcess ui') = true
  /\ error ui' = None
  /\ alert (render ui') = None.
Proof.
  cbv zeta.
  destruct (streamed_error_only_in_log blank
              {| status := 200; statusText := js "OK";
                 chunks := [processing (js "a.pdf");
                            error_fragment (js "quota exceeded")];
                 ending := Finished |}
              (error_fragment (js "quota exceeded"))
              eq_refl eq_refl (or_intror (or_introl eq_refl)))
    as (I & _ & E & A).
  split; [exact I|]. split; [exact E|exact A].
Defined.

(** C8 as stated has the error text in the alert element too.  The LLM
    rejects the first summarization call of a request; the fragments the
    server writes are read by the client, one per chunk: the [Error:]
    fragment arrives and no alert is rendered. *)
Lemma streamed_error_alert_counterexample :
  let served := POST (world (once 5 "quota exceeded") (pages 1))
                  (upload ["a.pdf"]%string) (init []) in
  let response := {| status := 200; statusText := js "OK";
                     chunks := writes (trace (snd served));
                     ending := Finished |} in
  let ui' := generateAnalysis (Responded response) blank in
  faults (trace (snd served)) = [js "quota exceeded"]
  /\ In (js "Error: quota exceeded" ++ nl) (chunks response)
  /\ error ui' = None
  /\ alert (render ui') = None.
Proof.
  cbv zeta. split; [vm_compute; reflexivity|].
  split; [vm_compute; right; left; reflexivity|].
  split; vm_compute; reflexivity.
Qed.

End ClientSpec.

(** ** Further properties of the route *)

Module RouteMore.

Import Server ServerFacts JSFacts FileFacts RequestFacts RouteSpec Scenario.

Lemma read_files_app (a b : list Event) :
  read_files (a ++ b) = read_files a ++ read_files b.
Proof.
  induction a as [|[[] o| | |] a IH]; simpl; rewrite ?IH; reflexivity.
Qed.

Lemma synthesized_app (a b : list Event) :
  synthesized (a ++ b) = synthesized a ++ synthesized b.
Proof.
  induction a as [|[[] o| | |] a IH]; simpl; rewrite ?IH; reflexivity.
Qed.

Lemma staging_faults_app (a b : list Event) :
  staging_faults (a ++ b) = staging_faults a ++ staging_faults b.
Proof.
  induction a as [|[[] []| | |] a IH]; simpl; rewrite ?IH; reflexivity.
Qed.

(** The events of a [try] block leave these readings empty. *)
Lemma try_events_silent (l : list Event) :
  Forall try_event l ->
  read_files l = [] /\ synthesized l = [] /\ staging_faults l = []
  /\ removals l = [].
Proof.
  induction 1 as [|e l He _ IH]; [repeat split|].
  destruct IH as (A & B & C & D).
  destruct e as [[] []| |f|]; try destruct He; repeat split; assumption.
Qed.

Lemma TryRun_summarized_bound (file : File) evs r :
  TryRun file evs r -> List.length (summarized evs) <= 5.
Proof.
  destruct 1 as [| |? ? ? ? ? L|? ? ? ? ? L]; cbn [summarized List.length];
    try lia; rewrite ?summarized_app; cbn [summarized]; rewrite ?app_nil_r;
    destruct (LoopRun_summarized _ _ _ _ _ _ _ _ L) as [-> Le];
    rewrite length_seq; lia.
Qed.

(** What one file adds to these readings. *)
Lemma FileRun_more (file : File) evs r :
  FileRun file evs r ->
  read_files evs = [name file]
  /\ synthesized evs = []
  /\ List.length (summarized evs) <= 5
  /\ (staging_faults evs = [] -> forall ds, incl (fs_apply evs ds) ds).
Proof.
  destruct 1 as [m|prefix m|prefix tempDir path m
                |prefix tempDir path tev r T|prefix tempDir path tev r m T].
  1-2: cbn; repeat split; try lia; intros _ ds; apply incl_refl.
  - cbn. repeat split; try lia. discriminate.
  - destruct (try_events_silent _ (TryRun_events _ _ _ T)) as (A & B & C & _).
    cbn [read_files synthesized summarized staging_faults].
    rewrite read_files_app, synthesized_app, summarized_app, staging_faults_app,
      A, B, C.
    cbn [read_files synthesized summarized staging_faults app].
    rewrite app_nil_r. split; [reflexivity|]. split; [reflexivity|].
    split; [apply (TryRun_summarized_bound _ _ _ T)|].
    intros _ ds. cbn [fs_apply].
    rewrite fs_apply_app, (TryRun_fs _ _ _ _ T). cbn [fs_apply].
    intros d Hd. apply in_remove in Hd as [Hd Hne].
    destruct Hd as [->|Hd]; [congruence|exact Hd].
  - destruct (try_events_silent _ (TryRun_events _ _ _ T)) as (A & B & C & _).
    cbn [read_files synthesized summarized staging_faults fs_apply].
    rewrite read_files_app, synthesized_app, summarized_app, staging_faults_app,
      A, B, C.
    cbn [read_files synthesized summarized staging_faults app].
    rewrite app_nil_r. split; [reflexivity|]. split; [reflexivity|].
    split; [apply (TryRun_summarized_bound _ _ _ T)|discriminate].
Qed.

Lemma FilesRun_more (files : list File) evs r :
  FilesRun files evs r ->
  (exists k,
     read_files evs = map name (firstn k files)
     /\ k <= List.length files
     /\ k <= S (List.length (filter is_summary (writes evs)))
     /\ (forall u, r = Ok u -> k = List.length files))
  /\ synthesized evs = []
  /\ List.length (summarized evs) <= 5 * List.length files
  /\ (staging_faults evs = [] -> forall ds, incl (fs_apply evs ds) ds).
Proof.
  induction 1 as [|file rest evs m F|file rest evs v evs' r F R IH].
  - split; [exists 0; cbn; repeat split; lia|].
    cbn. repeat split; try lia. intros _ ds. apply incl_refl.
  - destruct (FileRun_more _ _ _ F) as (A & B & C & D).
    split; [exists 1; cbn [firstn map List.length]; rewrite A;
            repeat split; try lia; discriminate|].
    split; [exact B|]. split; [cbn [List.length]; lia|exact D].
  - destruct (FileRun_more _ _ _ F) as (A & B & C & D).
    destruct (FileRun_block _ _ _ F) as (_ & _ & Sm).
    destruct IH as ((k & Rk & Lk & Sk & Ok_) & B' & C' & D').
    rewrite read_files_app, synthesized_app, summarized_app, staging_faults_app,
      writes_app, filter_app, !length_app, A, B, B', Sm.
    split.
    + exists (S k). cbn [firstn map List.length app]. rewrite Rk.
      repeat split; try lia. intros u Hu. rewrite (Ok_ u Hu). reflexivity.
    + split; [reflexivity|]. split; [cbn [List.length]; lia|].
      intros Hs ds. apply app_eq_nil in Hs as [Hs Hs'].
      rewrite fs_apply_app. intros d Hd.
      apply (D Hs ds). apply (D' Hs' _). exact Hd.
Qed.

(** X6: a request with files is always answered with status 200 and a
    [text/plain] stream, whatever happens while the files are processed:
    faults are only reported inside the stream. *)
Theorem files_always_streamed (w : World) (data : FormData) (s : State) :
  getAll (js "files") data <> [] ->
  fst (POST w {| formData := Ok data |} s)
  = Ok {| status := 200; body := BodyStream;
          contentType := Some (js "text/plain; charset=utf-8") |}
  /\ exists evs,
       trace (snd (POST w {| formData := Ok data |} s))
       = trace s ++ Opened :: evs.
Proof.
  intros H. destruct (POST_run w data s H) as (s' & evs & -> & _ & T & _).
  cbn [fst snd]. split; [reflexivity|]. exists evs. exact T.
Qed.

Lemma files_always_streamed_witness :
  fst (POST (world (once 0 "unreadable") (pages 1))
         (upload ["a.pdf"]%string) (init []))
  = Ok {| status := 200; body := BodyStream;
          contentType := Some (js "text/plain; charset=utf-8") |}.
Proof.
  apply (files_always_streamed (world (once 0 "unreadable") (pages 1))
           [(js "files", pdf "a.pdf")] (init [])).
  discriminate.
Defined.



Lemma POST_cases (w : World) (data : FormData) (s : State) r s' evs :
  POST w {| formData := Ok data |} s = (r, s') ->
  trace s' = trace s ++ evs ->
  (getAll (js "files") data = [] /\ evs = [] /\ s' = s)
  \/ (getAll (js "files") data <> []
      /\ exists wev,
           evs = Opened :: wev
           /\ WorkerRun (getAll (js "files") data) wev
           /\ dirs s' = fs_apply wev (dirs s)).
Proof.
  intros Hrun Ht.
  destruct (getAll (js "files") data) as [|file rest] eqn:Hfiles.
  - left. rewrite (POST_no_files w data s Hfiles) in Hrun.
    injection Hrun as _ <-. rewrite <- (app_nil_r (trace s)) in Ht at 1.
    apply app_inv_head in Ht. auto.
  - right. split; [discriminate|].
    assert (Hne : getAll (js "files") data <> []) by (rewrite Hfiles; discriminate).
    destruct (POST_events _ _ _ _ _ _ Hrun Ht Hne) as (wev & E & R & _ & D).
    rewrite Hfiles in R. eauto.
Qed.



(** X5: a request with N files calls the summarization chain at most 5 N
    times and the synthesis chain at most once. *)
Theorem llm_calls_bounded (w : World) (data : FormData) (s : State)
    r s' evs :
  POST w {| formData := Ok data |} s = (r, s') ->
  trace s' = trace s ++ evs ->
  List.length (summarized evs) <= 5 * List.length (getAll (js "files") data)
  /\ List.length (synthesized evs) <= 1.
Proof.
  intros Hrun Ht.
  destruct (POST_cases _ _ _ _ _ _ Hrun Ht)
    as [(-> & -> & _)|(_ & wev & -> & R & _)].
  { cbn. lia. }
  cbn [summarized synthesized].
  destruct R as [fev m R|fev m R|fev text R];
    destruct (FilesRun_more _ _ _ R) as (_ & Sy & Sm & _);
    rewrite summarized_app, synthesized_app, !length_app, Sy;
    cbn [summarized synthesized List.length app]; lia.
Qed.

Lemma llm_calls_bounded_witness :
  let run := POST (world never (pages 9)) (upload ["a.pdf"; "b.pdf"]%string)
               (init []) in
  List.length (summarized (trace (snd run))) <= 10
  /\ List.length (synthesized (trace (snd run))) <= 1.
Proof.
  cbv zeta.
  set (w := world never (pages 9)).
  set (data := [(js "files", pdf "a.pdf"); (js "files", pdf "b.pdf")]).
  apply (@llm_calls_bounded w data (init [])
           (fst (POST w {| formData := Ok data |} (init [])))
           (snd (POST w {| formData := Ok data |} (init [])))
           (trace (snd (POST w {| formData := Ok data |} (init []))))
           (surjective_pairing _) eq_refl).
Defined.

End RouteMore.

(** ** Further properties of the client *)

Module ClientMore.

Import Server Client JSFacts ClientSpec Scenario.

Lemma read_loop_app (a b : list jsstring) (e : StreamEnd) :
  forall r r1,
    read_loop a Finished r = (r1, Normal) ->
    read_loop (a ++ b) e r = read_loop b e r1.
Proof.
  induction a as [|chunk a IH]; intros r r1; cbn [read_loop app].
  - intros [= ->]. reflexivity.
  - destruct (read_chunk chunk r) as [r' [|x]]; [apply IH|discriminate].
Qed.

Lemma truthy_app (a b : jsstring) : truthy a = true -> truthy (a ++ b) = true.
Proof. destruct a; [discriminate|reflexivity]. Qed.

(** A chunk with no marker only extends the texts. *)
Lemma read_chunk_plain (chunk : jsstring) (r : Reader) :
  plain chunk ->
  read_chunk chunk r
  = ({| accumulatedText := accumulatedText r ++ chunk;
        currentSummary :=
          if truthy (currentSummary r) then currentSummary r ++ chunk
          else currentSummary r;
        summaries := summaries r;
        published := published r;
        progressText := progressText r ++ chunk |}, Normal).
Proof.
  intros [Hs Hu]. unfold read_chunk, on_unified_marker, on_summary_marker.
  rewrite Hs, Hu. cbn [currentSummary receive].
  destruct (truthy (currentSummary r)); reflexivity.
Qed.

Lemma read_loop_plain (body : list jsstring) :
  forall r,
    Forall plain body ->
    read_loop body Finished r
    = ({| accumulatedText := accumulatedText r ++ List.concat body;
          currentSummary :=
            if truthy (currentSummary r)
            then currentSummary r ++ List.concat body
            else currentSummary r;
          summaries := summaries r;
          published := published r;
          progressText := progressText r ++ List.concat body |}, Normal).
Proof.
  induction body as [|chunk rest IH]; intros r Hall;
    cbn [read_loop List.concat].
  - rewrite !app_nil_r. destruct r as [a c s p t]; cbn.
    destruct (truthy c); reflexivity.
  - inversion Hall as [|? ? Hc Hrest]; subst.
    rewrite (read_chunk_plain _ r Hc), (IH _ Hrest).
    cbn [accumulatedText currentSummary summaries published progressText].
    destruct (truthy (currentSummary r)) eqn:T.
    + rewrite (truthy_app _ chunk T), <- !app_assoc. reflexivity.
    + rewrite T, <- !app_assoc. reflexivity.
Qed.

(** A block finalizes the summary in progress and leaves its own text in
    progress. *)
Lemma read_loop_block (b : Block) (r : Reader) :
  well_formed b ->
  read_loop (block_chunks b) Finished r
  = ({| accumulatedText := accumulatedText r ++ List.concat (block_chunks b);
        currentSummary := block_text b;
        summaries := finalize r;
        published := published r;
        progressText := progressText r ++ List.concat (block_chunks b) |},
     Normal).
Proof.
  intros (Hs & Hu & Ht & Hp). unfold block_chunks, block_text.
  cbn [read_loop List.concat].
  unfold read_chunk at 1. unfold on_unified_marker, on_summary_marker.
  rewrite Hs, Hu. fold (opening_text b).
  rewrite (read_loop_plain _ _ Hp).
  cbn [accumulatedText currentSummary summaries published progressText receive].
  rewrite Ht, <- !app_assoc. reflexivity.
Qed.

Lemma block_text_truthy (b : Block) :
  well_formed b -> truthy (block_text b) = true.
Proof. intros (_ & _ & Ht & _). apply truthy_app, Ht. Qed.

Lemma read_loop_blocks (blocks : list Block) :
  forall r,
    Forall well_formed blocks ->
    blocks <> [] ->
    read_loop (List.concat (map block_chunks blocks)) Finished r
    = ({| accumulatedText :=
            accumulatedText r ++ List.concat (List.concat (map block_chunks blocks));
          currentSummary := last (map block_text blocks) [];
          summaries :=
            finalize r ++ map trim (removelast (map block_text blocks));
          published := published r;
          progressText :=
            progressText r ++ List.concat (List.concat (map block_chunks blocks)) |},
       Normal).
Proof.
  induction blocks as [|b rest IH]; intros r Hall Hne; [congruence|].
  inversion Hall as [|? ? Hb Hrest]; subst.
  cbn [map List.concat].
  rewrite (read_loop_app _ _ Finished _ _ (read_loop_block b r Hb)).
  destruct rest as [|b' rest'].
  - cbn [map List.concat read_loop last removelast].
    rewrite !app_nil_r. reflexivity.
  - rewrite (IH _ Hrest) by discriminate.
    cbn [accumulatedText currentSummary summaries published progressText].
    unfold finalize at 1. cbn [currentSummary summaries].
    rewrite (block_text_truthy b Hb).
    rewrite concat_app, <- !app_assoc.
    cbn [map last removelast app]. reflexivity.
Qed.

(** [split('Summary for')[1]] of the chunk that opens a block is the text
    between the first [Summary for] of the chunk and the next one in it, the
    end of the chunk when there is no other. *)
Lemma opening_text_between (b : Block) :
  includes summaryMarker (opening b) = true ->
  exists rest,
    following summaryMarker (opening b) = Some rest
    /\ opening_text b = upto summaryMarker rest.
Proof.
  intros H. destruct (includes_following _ _ H) as (rest & F).
  exists rest. split; [exact F|]. unfold opening_text.
  rewrite (split_at1 _ _ _ summaryMarker_nonempty F). reflexivity.
Qed.

(** X7: what the client publishes for a stream of this shape: chunks with
    neither marker; then, for each of one or more papers, a chunk that
    contains [Summary for] and not [Unified Analysis:] and whose
    [split('Summary for')[1]] is not empty (the text between its first
    [Summary for] and the next one in the chunk, the end of the chunk when
    there is no other), followed by chunks with neither marker; then one
    chunk that contains [Unified Analysis:] and not [Summary for].  The
    summary of a paper is that [split('Summary for')[1]] followed by the
    markerless chunks after it, trimmed, so it holds the progress lines that
    follow; the summary of the last paper also holds the whole last chunk.
    The unified analysis is the trimmed text between the first
    [Unified Analysis:] of the accumulated text and the next one. *)
Theorem reconstruction (log : jsstring) (prelude : list jsstring)
    (blocks : list Block) (final : jsstring) :
  Forall plain prelude ->
  Forall well_formed blocks ->
  blocks <> [] ->
  includes summaryMarker final = false ->
  includes unifiedMarker final = true ->
  let body := prelude ++ List.concat (map block_chunks blocks) ++ [final] in
  exists r' rest,
    read_loop body Finished (start log) = (r', Normal)
    /\ following unifiedMarker (List.concat body) = Some rest
    /\ result_of r'
       = Some {| result_summaries :=
                   map trim (removelast (map block_text blocks))
                     ++ [trim (last (map block_text blocks) [] ++ final)];
                 unifiedAnalysis := trim (upto unifiedMarker rest) |}
    /\ Forall (fun b =>
                 exists after,
                   following summaryMarker (opening b) = Some after
                   /\ block_text b
                      = upto summaryMarker after ++ List.concat (trailing b))
              blocks.
Proof.
  intros Hpre Hblocks Hne Hs Hu. cbv zeta.
  rewrite (read_loop_app _ _ Finished _ _ (read_loop_plain _ (start log) Hpre)).
  cbn [accumulatedText currentSummary summaries published progressText start
       truthy app].
  rewrite (read_loop_app _ _ Finished _ _ (read_loop_blocks _ _ Hblocks Hne)).
  unfold finalize at 1.
  cbn [accumulatedText currentSummary summaries published progressText truthy
       app read_loop].
  assert (T : truthy (last (map block_text blocks) []) = true).
  { clear - Hblocks Hne. induction Hblocks as [|b rest Hb Hrest IH];
      [congruence|].
    destruct rest as [|b' rest']; [exact (block_text_truthy b Hb)|].
    cbn [map last]. apply IH. discriminate. }
  assert (A : List.concat (prelude ++ List.concat (map block_chunks blocks)
                             ++ [final])
              = (List.concat prelude
                   ++ List.concat (List.concat (map block_chunks blocks)))
                  ++ final).
  { rewrite !concat_app. cbn [List.concat].
    rewrite app_nil_r, app_assoc. reflexivity. }
  destruct (includes_following _ _
              (includes_app_l _
                 (List.concat prelude
                    ++ List.concat (List.concat (map block_chunks blocks)))
                 _ Hu)) as (rest & F).
  unfold read_chunk, on_unified_marker, on_summary_marker.
  rewrite Hs, Hu.
  cbn [accumulatedText currentSummary summaries published progressText receive].
  rewrite T.
  cbn [accumulatedText currentSummary summaries published progressText].
  rewrite (split_at1 _ _ _ unifiedMarker_nonempty F).
  eexists. exists rest. split; [reflexivity|]. split; [rewrite A; exact F|].
  split.
  - unfold result_of, finalize.
    cbn [accumulatedText currentSummary summaries published progressText].
    rewrite (truthy_app _ final T). reflexivity.
  - eapply Forall_impl; [|exact Hblocks].
    intros b (Hb & _). destruct (opening_text_between b Hb) as (after & Fa & E).
    exists after. split; [exact Fa|]. unfold block_text. rewrite E.
    reflexivity.
Qed.

Lemma reconstruction_witness :
  let served := POST (world never (pages 1)) (upload ["a.pdf"; "b.pdf"]%string)
                  (init []) in
  let first := {| opening := summary_for (js "a.pdf") (js "about page 1");
                  trailing := [processing (js "b.pdf");
                               analyzing 1 1 (js "b.pdf")] |} in
  let second := {| opening := summary_for (js "b.pdf") (js "about page 1");
                   trailing := [synthesizing] |} in
  exists r',
    read_loop (writes (trace (snd served))) Finished (start []) = (r', Normal)
    /\ result_of r'
       = Some {| result_summaries :=
                   [trim (block_text first);
                    trim (block_text second ++ unified_analysis (js "theme"))];
                 unifiedAnalysis := js "theme" |}.
Proof.
  cbv zeta.
  set (first := {| opening := summary_for (js "a.pdf") (js "about page 1");
                   trailing := [processing (js "b.pdf");
                                analyzing 1 1 (js "b.pdf")] |}).
  set (second := {| opening := summary_for (js "b.pdf") (js "about page 1");
                    trailing := [synthesizing] |}).
  set (prelude := [processing (js "a.pdf"); analyzing 1 1 (js "a.pdf")]).
  set (final := unified_analysis (js "theme")).
  assert (B : writes (trace (snd (POST (world never (pages 1))
                                    (upload ["a.pdf"; "b.pdf"]%string)
                                    (init []))))
              = prelude ++ List.concat (map block_chunks [first; second])
                  ++ [final])
    by (vm_compute; reflexivity).
  rewrite B.
  assert (Hpre : Forall plain prelude)
    by (repeat constructor; vm_compute; reflexivity).
  assert (Hblocks : Forall well_formed [first; second])
    by (repeat constructor; vm_compute; reflexivity).
  destruct (reconstruction [] prelude [first; second] final Hpre Hblocks
              ltac:(discriminate) eq_refl eq_refl)
    as (r' & rest & R & F & Res & _).
  exists r'. split; [exact R|]. rewrite Res.
  assert (F' : following unifiedMarker
                 (List.concat (prelude
                                 ++ List.concat (map block_chunks [first; second])
                                 ++ [final]))
               = Some (nl ++ js "theme" ++ nl))
    by (vm_compute; reflexivity).
  rewrite F' in F. injection F as <-. reflexivity.
Defined.

(** *** The button and the request *)

Lemma getAll_formData_of (ui : UI) :
  getAll (js "files") (formData_of ui) = map file (files ui).
Proof.
  unfold formData_of, getAll.
  induction (files ui) as [|f l IH]; [reflexivity|].
  cbn [map filter fst]. change (units_eqb (js "files") (js "files")) with true.
  cbn [map snd]. rewrite IH. reflexivity.
Qed.

(** X8: whenever the analysis button is enabled, the form data that
    [generateAnalysis] posts has every selected file under [files], in
    order, and at least one; the route then answers 200 with the stream,
    never 400. *)
Theorem enabled_analysis_is_accepted (ui : UI) (w : World) (s : State) :
  analyzeDisabled (render ui) = false ->
  getAll (js "files") (formData_of ui) = map file (files ui)
  /\ files ui <> []
  /\ fst (POST w {| formData := Ok (formData_of ui) |} s)
     = Ok {| Server.status := 200; body := BodyStream;
             contentType := Some (js "text/plain; charset=utf-8") |}.
Proof.
  intros H. unfold render in H. cbn [analyzeDisabled] in H.
  apply orb_false_iff in H as [Hlen _].
  assert (Hne : files ui <> []).
  { intros E. rewrite E in Hlen. discriminate. }
  split; [apply getAll_formData_of|]. split; [exact Hne|].
  assert (G : getAll (js "files") (formData_of ui) <> []).
  { rewrite getAll_formData_of. destruct (files ui); [congruence|discriminate]. }
  destruct (ServerFacts.POST_run w (formData_of ui) s G)
    as (s' & evs & -> & _).
  reflexivity.
Qed.

Lemma enabled_analysis_is_accepted_witness :
  let ui := handleFileChange (Some [{| ident := 1; file := pdf "a.pdf" |}])
              blank in
  analyzeDisabled (render ui) = false
  /\ getAll (js "files") (formData_of ui) = [pdf "a.pdf"].
Proof.
  cbv zeta. split; [reflexivity|].
  apply (enabled_analysis_is_accepted
           (handleFileChange (Some [{| ident := 1; file := pdf "a.pdf" |}])
              blank)
           (world never (pages 1)) (init [])).
  reflexivity.
Defined.

(** *** Exceptions in [generateAnalysis] *)

Lemma read_loop_completion (body : list jsstring) (e : StreamEnd) :
  forall r, exists r',
    read_loop body e r
    = (r', match e with Finished => Normal | ReadFailed x => Thrown x end)
    /\ progressText r' = progressText r ++ List.concat body.
Proof.
  intros r. destruct (read_loop_finished body r) as (r' & H & P).
  exists r'. split; [|exact P].
  rewrite <- (app_nil_r body), (read_loop_app _ _ e _ _ H).
  destruct e; reflexivity.
Qed.

(** X9: the alert is rendered exactly when [fetch] rejects with an
    [Error], the status of the response is not OK, or a read of the body
    rejects with an [Error]; what the chunks contain never raises it. *)
Theorem alert_iff_client_exception (net : Fetched) (ui : UI) :
  alert (render (generateAnalysis net ui)) <> None
  <-> (exists m, net = FetchRejected (IsError m))
      \/ (exists response, net = Responded response /\ ok response = false)
      \/ (exists response m,
            net = Responded response /\ ok response = true
            /\ ending response = ReadFailed (IsError m)).
Proof.
  unfold generateAnalysis, generateAnalysis_try, render.
  destruct net as [[m|]|response].
  - cbn. split; [intros _; left; eauto|discriminate].
  - cbn. split; [congruence|].
    intros [(m & H)|[(x & H & _)|(x & m & H & _)]]; discriminate H.
  - destruct (ok response) eqn:Hok.
    + destruct (read_loop_completion (chunks response) (ending response)
                  (start (js "Initiating analysis of "
                            ++ ofNat (List.length (files ui))
                            ++ js " files...")))
        as (r' & -> & _).
      destruct (ending response) as [|[m|]] eqn:He; cbn.
      * split; [congruence|].
        intros [(m & H)|[(x & H & Hx)|(x & m & H & _ & Hx)]];
          try discriminate H; injection H as <-; congruence.
      * split; [|discriminate]. intros _. right. right.
        exists response, m. auto.
      * split; [congruence|].
        intros [(m & H)|[(x & H & Hx)|(x & m & H & _ & Hx)]];
          try discriminate H; injection H as <-; congruence.
    + cbn. split; [|discriminate]. intros _. right. left. eauto.
Qed.

(** X10: when a read of the body rejects, the progress log keeps every
    chunk read before, followed by the error line; the alert shows the
    message and the spinner is gone. *)
Theorem read_failure_keeps_progress (ui : UI) (response : HttpResponse)
    (m : jsstring) :
  ok response = true ->
  ending response = ReadFailed (IsError m) ->
  let ui' := generateAnalysis (Responded response) ui in
  scientificProcess ui'
  = js "Initiating analysis of " ++ ofNat (List.length (files ui))
      ++ js " files..." ++ List.concat (chunks response)
      ++ nl ++ js "Error occurred: " ++ m
  /\ alert (render ui') = Some (js "An error occurred: " ++ m)
  /\ spinner (render ui') = false
  /\ files ui' = files ui.
Proof.
  intros Hok He. cbv zeta.
  unfold generateAnalysis, generateAnalysis_try. rewrite Hok, He.
  destruct (read_loop_completion (chunks response) (ReadFailed (IsError m))
              (start (js "Initiating analysis of "
                        ++ ofNat (List.length (files ui)) ++ js " files...")))
    as (r' & -> & P).
  cbn [progressText start] in P. unfold render.
  cbn [scientificProcess alert spinner error isLoading files].
  rewrite P, <- !app_assoc. repeat split.
Qed.

Lemma read_failure_keeps_progress_witness :
  let response := {| status := 200; statusText := js "OK";
                     chunks := [processing (js "a.pdf")];
                     ending := ReadFailed (IsError (js "network error")) |} in
  alert (render (generateAnalysis (Responded response) blank))
  = Some (js "An error occurred: network error").
Proof.
  cbv zeta.
  apply (read_failure_keeps_progress blank
           {| status := 200; statusText := js "OK";
              chunks := [processing (js "a.pdf")];
              ending := ReadFailed (IsError (js "network error")) |}
           (js "network error") eq_refl eq_refl).
Defined.

(** *** The list of files *)

(** X11: removing a file that was just added, and was not in the list
    before, gives back the list as it was; the progress text names the
    removed file. *)
Theorem remove_undoes_add (ui : UI) (f : Upload) :
  Forall (fun g => ident g <> ident f) (files ui) ->
  files (removeFile f (handleFileChange (Some [f]) ui)) = files ui
  /\ fileRows (render (removeFile f (handleFileChange (Some [f]) ui)))
     = fileRows (render ui)
  /\ scientificProcess (removeFile f (handleFileChange (Some [f]) ui))
     = js "File removed: " ++ fileName f.
Proof.
  intros H.
  assert (E : files (removeFile f (handleFileChange (Some [f]) ui)) = files ui).
  { unfold removeFile, handleFileChange. cbn [files].
    rewrite filter_app. cbn [filter]. rewrite Nat.eqb_refl. cbn [negb].
    rewrite app_nil_r.
    induction H as [|g l Hg _ IH]; [reflexivity|].
    cbn [filter]. apply Nat.eqb_neq in Hg. rewrite Hg. cbn [negb].
    rewrite IH. reflexivity. }
  split; [exact E|]. split; [|reflexivity].
  unfold render. cbn [fileRows]. rewrite E. reflexivity.
Qed.

Lemma remove_undoes_add_witness :
  let ui := handleFileChange (Some [{| ident := 1; file := pdf "a.pdf" |}])
              blank in
  let f := {| ident := 2; file := pdf "a.pdf" |} in
  files (removeFile f (handleFileChange (Some [f]) ui)) = files ui.
Proof.
  cbv zeta.
  apply (remove_undoes_add
           (handleFileChange (Some [{| ident := 1; file := pdf "a.pdf" |}])
              blank)
           {| ident := 2; file := pdf "a.pdf" |}).
  repeat constructor. discriminate.
Defined.

End ClientMore.

(** ** The staging directory, for any consumer of the fragments *)

Module Staging.

Import Server ServerFacts RouteMore Scenario.

Lemma calm_refl (s : State) : calm s [] s.
Proof. unfold calm. rewrite app_nil_r. auto. Qed.

Lemma calm_trans (s s1 s2 : State) (e1 e2 : list Event) :
  calm s e1 s1 -> calm s1 e2 s2 -> calm s (e1 ++ e2) s2.
Proof.
  intros (T1 & D1 & R1 & F1) (T2 & D2 & R2 & F2). unfold calm.
  rewrite T2, T1, D2, D1, removals_app, staging_faults_app, R1, R2, F1, F2,
    app_assoc.
  auto.
Qed.

Lemma wrote_silent (ws : list jsstring) :
  removals (map Wrote ws) = []
  /\ staging_faults (map Wrote ws) = []
  /\ (forall c o, ~ In (Ext c o) (map Wrote ws)).
Proof.
  induction ws as [|f ws (R & F & N)]; cbn [map removals staging_faults].
  - repeat split. intros c o [].
  - repeat split; try assumption.
    intros c o [H|H]; [discriminate H|exact (N c o H)].
Qed.

Lemma quiet_calm (y : jsstring -> M unit) (f : jsstring) (s : State) r s' :
  quiet y -> y f s = (r, s') -> exists ws, calm s (map Wrote ws) s'.
Proof.
  intros Q H. destruct (Q f s r s' H) as (D & ws & T). exists ws.
  destruct (wrote_silent ws) as (R & F & _). unfold calm. auto.
Qed.

Lemma ext_calm A (c : Call) (r : nat -> result A) (shown : A -> Outcome)
    (s : State) res s' :
  harmless c ->
  ext c r shown (fun _ d => d) s = (res, s') ->
  exists o, calm s [Ext c o] s'.
Proof.
  intros Hc. unfold ext. destruct (r (clock s)) as [a|m]; intros [= <- <-].
  - exists (shown a). unfold calm. cbn [trace dirs].
    destruct c; try destruct Hc; destruct (shown a); repeat split.
  - exists (Fault m). unfold calm. cbn [trace dirs].
    destruct c; try destruct Hc; repeat split.
Qed.

Section AnyConsumer.

Variables (w : World) (y : jsstring -> M unit).
Hypothesis y_quiet : quiet y.

Lemma summarize_loop_calm (fileName : jsstring) (chunks : list Document)
    (n k : nat) :
  forall i acc s r s',
    summarize_loop w y fileName chunks n k i acc s = (r, s') ->
    exists evs, calm s evs s'.
Proof.
  induction k as [|k IH]; intros i acc s r s' Hrun; cbn [summarize_loop] in Hrun.
  - injection Hrun as _ <-. exists []. apply calm_refl.
  - destruct (nth_error chunks i) as [c|].
    2:{ injection Hrun as _ <-. exists []. apply calm_refl. }
    apply bind_inv in Hrun as [(t & s1 & Hcall & Hrun)|(m & Hcall & _)].
    + unfold summarize in Hcall.
      apply ext_calm in Hcall as (o & C1); [|exact I].
      apply bind_inv in Hrun as [(u & s2 & Hy & Hrun)|(m & Hy & _)].
      * apply (quiet_calm _ _ _ _ _ y_quiet) in Hy as (ws & C2).
        apply IH in Hrun as (evs & C3).
        eexists. eapply calm_trans; [exact C1|].
        eapply calm_trans; [exact C2|exact C3].
      * apply (quiet_calm _ _ _ _ _ y_quiet) in Hy as (ws & C2).
        eexists. eapply calm_trans; [exact C1|exact C2].
    + unfold summarize in Hcall.
      apply ext_calm in Hcall as (o & C1); [|exact I]. eauto.
Qed.

(** The [try] block starts with the call of the loader and leaves the
    staging directories alone. *)
Lemma processFile_try_calm (file : File) (path : jsstring) (s : State) r s' :
  processFile_try w file y path s = (r, s') ->
  exists o body, calm s (Ext (Load path) o :: body) s'.
Proof.
  unfold processFile_try. intros Hrun.
  assert (Step : forall s1 o, calm s [Ext (Load path) o] s1 ->
            forall body, calm s1 body s' ->
            exists o0 body0, calm s (Ext (Load path) o0 :: body0) s').
  { intros s1 o C1 body C2. exists o, body.
    apply (calm_trans _ _ _ _ _ C1 C2). }
  apply bind_inv in Hrun as [(docs & s1 & Hload & Hrun)|(m & Hload & _)].
  2:{ unfold load in Hload. apply ext_calm in Hload as (o & C1); [|exact I].
      apply (Step _ _ C1 []), calm_refl. }
  unfold load in Hload. apply ext_calm in Hload as (o & C1); [|exact I].
  apply bind_inv in Hrun as [(chunks & s2 & Hsplit & Hrun)|(m & Hsplit & _)].
  2:{ unfold splitDocuments in Hsplit.
      apply ext_calm in Hsplit as (o2 & C2); [|exact I].
      apply (Step _ _ C1 _ C2). }
  unfold splitDocuments in Hsplit.
  apply ext_calm in Hsplit as (o2 & C2); [|exact I].
  apply bind_inv in Hrun as [(full & s3 & Hloop & Hrun)|(m & Hloop & _)].
  2:{ apply summarize_loop_calm in Hloop as (evs & C3).
      apply (Step _ _ C1 _ (calm_trans _ _ _ _ _ C2 C3)). }
  apply summarize_loop_calm in Hloop as (evs & C3).
  apply bind_inv in Hrun as [(u & s4 & Hy & Hrun)|(m & Hy & _)].
  - injection Hrun as _ <-.
    apply (quiet_calm _ _ _ _ _ y_quiet) in Hy as (ws & C4).
    apply (Step _ _ C1 _
             (calm_trans _ _ _ _ _ C2 (calm_trans _ _ _ _ _ C3 C4))).
  - apply (quiet_calm _ _ _ _ _ y_quiet) in Hy as (ws & C4).
    apply (Step _ _ C1 _
             (calm_trans _ _ _ _ _ C2 (calm_trans _ _ _ _ _ C3 C4))).
Qed.

(** The paths through [processFile] as far as the staging directory goes:
    the file is not read; no directory is made; the staging write rejects;
    the consumer rejects the [Processing] fragment; or the [try] block is
    entered, and then [fs.rm] is the last call. *)
Lemma processFile_staging (file : File) (s : State) r s' :
  processFile w file y s = (r, s') ->
  exists evs,
    trace s' = trace s ++ evs
    /\ ((exists m,
           evs = [Ext (ArrayBuffer (name file)) (Fault m)]
           /\ dirs s' = dirs s)
        \/ (exists prefix m,
              evs = [Ext (ArrayBuffer (name file)) Done;
                     Ext (Mkdtemp prefix) (Fault m)]
              /\ dirs s' = dirs s)
        \/ (exists prefix tempDir path m,
              evs = [Ext (ArrayBuffer (name file)) Done;
                     Ext (Mkdtemp prefix) (Text tempDir);
                     Ext (WriteFile path) (Fault m)]
              /\ dirs s' = tempDir :: dirs s)
        \/ (exists prefix tempDir path ws,
              evs = [Ext (ArrayBuffer (name file)) Done;
                     Ext (Mkdtemp prefix) (Text tempDir);
                     Ext (WriteFile path) Done] ++ map Wrote ws
              /\ dirs s' = tempDir :: dirs s
              /\ ~ accepting y)
        \/ (exists prefix tempDir path ws lpath o body o',
              evs = [Ext (ArrayBuffer (name file)) Done;
                     Ext (Mkdtemp prefix) (Text tempDir);
                     Ext (WriteFile path) Done]
                      ++ map Wrote ws
                      ++ Ext (Load lpath) o :: body
                      ++ [Ext (Rm tempDir) o']
              /\ removals body = []
              /\ staging_faults body = []
              /\ ((o' = Done
                   /\ dirs s' = remove jsstring_eq_dec tempDir (tempDir :: dirs s))
                  \/ (exists m, o' = Fault m /\ dirs s' = tempDir :: dirs s)))).
Proof.
  unfold processFile. intros Hrun.
  apply bind_inv in Hrun as [(buffer & s1 & Hab & Hrun)|(m & Hab & _)].
  2:{ unfold arrayBuffer, ext in Hab.
      destruct (file_arrayBuffer w (clock s) file) as [b|m']; [discriminate|].
      injection Hab as _ <-.
      exists [Ext (ArrayBuffer (name file)) (Fault m')].
      split; [reflexivity|]. left. exists m'. auto. }
  unfold arrayBuffer, ext in Hab.
  destruct (file_arrayBuffer w (clock s) file) as [b|]; [|discriminate].
  injection Hab as <- <-.
  set (prefix := path_join w (os_tmpdir w) (js "pdf-upload-")) in *.
  apply bind_inv in Hrun as [(tempDir & s2 & Hmk & Hrun)|(m & Hmk & _)].
  2:{ unfold mkdtemp, ext in Hmk. cbn [clock dirs summaries trace] in Hmk.
      destruct (fs_mkdtemp w (S (clock s)) prefix) as [d|m']; [discriminate|].
      injection Hmk as _ <-.
      exists [Ext (ArrayBuffer (name file)) Done; Ext (Mkdtemp prefix) (Fault m')].
      cbn [trace dirs]. split; [rewrite <- app_assoc; reflexivity|].
      right. left. exists prefix, m'. auto. }
  unfold mkdtemp, ext in Hmk. cbn [clock dirs summaries trace] in Hmk.
  destruct (fs_mkdtemp w (S (clock s)) prefix) as [d|]; [|discriminate].
  injection Hmk as <- <-.
  set (path := path_join w d (name file)) in *.
  apply bind_inv in Hrun as [(u & s3 & Hwr & Hrun)|(m & Hwr & _)].
  2:{ unfold writeFile, ext in Hwr. cbn [clock dirs summaries trace] in Hwr.
      destruct (fs_writeFile w (S (S (clock s))) path b) as [u'|m'];
        [discriminate|].
      injection Hwr as _ <-.
      exists [Ext (ArrayBuffer (name file)) Done; Ext (Mkdtemp prefix) (Text d);
              Ext (WriteFile path) (Fault m')].
      cbn [trace dirs]. split; [rewrite <- !app_assoc; reflexivity|].
      right. right. left. exists prefix, d, path, m'. auto. }
  unfold writeFile, ext in Hwr. cbn [clock dirs summaries trace] in Hwr.
  destruct (fs_writeFile w (S (S (clock s))) path b) as [u'|]; [|discriminate].
  injection Hwr as _ <-.
  apply bind_inv in Hrun as [(u2 & s4 & Hy & Hrun)|(m & Hy & _)].
  2:{ pose proof Hy as Hy'.
      apply (quiet_calm _ _ _ _ _ y_quiet) in Hy as (ws & T & D & _).
      cbn [trace dirs] in T, D.
      exists ([Ext (ArrayBuffer (name file)) Done; Ext (Mkdtemp prefix) (Text d);
               Ext (WriteFile path) Done] ++ map Wrote ws).
      split; [rewrite T, <- !app_assoc; reflexivity|].
      right. right. right. left. exists prefix, d, path, ws.
      split; [reflexivity|]. split; [exact D|].
      intros Acc.
      match type of Hy' with
      | y ?f ?s0 = _ => destruct (Acc f s0) as (sx & Hx)
      end.
      rewrite Hx in Hy'. discriminate. }
  apply (quiet_calm _ _ _ _ _ y_quiet) in Hy as (ws & T & D & _).
  cbn [trace dirs] in T, D.
  apply try_finally_inv in Hrun as (rb & s5 & rf & Hbody & Hfin & _).
  apply processFile_try_calm in Hbody as (o & body & T5 & D5 & R5 & F5).
  cbn [removals] in R5.
  assert (R5' : removals body = []) by exact R5.
  assert (F5' : staging_faults body = []).
  { cbn [staging_faults] in F5. destruct o; exact F5. }
  unfold rm, ext in Hfin.
  destruct (fs_rm w (clock s5) d) as [u3|m'] eqn:Hrm;
    injection Hfin as _ <-.
  - exists ([Ext (ArrayBuffer (name file)) Done; Ext (Mkdtemp prefix) (Text d);
             Ext (WriteFile path) Done]
              ++ map Wrote ws ++ Ext (Load path) o :: body ++ [Ext (Rm d) Done]).
    cbn [trace dirs]. split.
    { rewrite T5, T. repeat (rewrite <- app_assoc; cbn [app]). reflexivity. }
    right. right. right. right.
    exists prefix, d, path, ws, path, o, body, Done.
    split; [reflexivity|]. split; [exact R5'|]. split; [exact F5'|].
    left. rewrite D5, D. auto.
  - exists ([Ext (ArrayBuffer (name file)) Done; Ext (Mkdtemp prefix) (Text d);
             Ext (WriteFile path) Done]
              ++ map Wrote ws ++ Ext (Load path) o :: body
              ++ [Ext (Rm d) (Fault m')]).
    cbn [trace dirs]. split.
    { rewrite T5, T. repeat (rewrite <- app_assoc; cbn [app]). reflexivity. }
    right. right. right. right.
    exists prefix, d, path, ws, path, o, body, (Fault m').
    split; [reflexivity|]. split; [exact R5'|]. split; [exact F5'|].
    right. exists m'. rewrite D5, D. auto.
Qed.

Lemma processFile_keeps (file : File) (s : State) r s' :
  processFile w file y s = (r, s') ->
  exists evs,
    trace s' = trace s ++ evs
    /\ (accepting y -> staging_faults evs = [] -> incl (dirs s') (dirs s)).
Proof.
  intros Hrun. destruct (processFile_staging _ _ _ _ Hrun) as (evs & T & Shape).
  exists evs. split; [exact T|]. intros Acc Hs.
  destruct Shape
    as [(m & -> & ->)
       |[(prefix & m & -> & ->)
        |[(prefix & d & path & m & -> & _)
         |[(prefix & d & path & ws & _ & _ & NAcc)
          |(prefix & d & path & ws & lpath & o & body & o' & -> & _ & _ & End)]]]].
  - apply incl_refl.
  - apply incl_refl.
  - discriminate Hs.
  - contradiction.
  - destruct End as [(-> & ->)|(m & -> & _)].
    + intros x Hx. apply in_remove in Hx as [[<-|Hx] Hne];
        [congruence|exact Hx].
    + exfalso. rewrite !staging_faults_app in Hs.
      apply app_eq_nil in Hs as [_ Hs]. apply app_eq_nil in Hs as [_ Hs].
      change (Ext (Load lpath) o :: body ++ [Ext (Rm d) (Fault m)])
        with ([Ext (Load lpath) o] ++ body ++ [Ext (Rm d) (Fault m)]) in Hs.
      rewrite !staging_faults_app in Hs.
      apply app_eq_nil in Hs as [_ Hs]. apply app_eq_nil in Hs as [_ Hs].
      discriminate Hs.
Qed.

Lemma for_files_with_keeps (files : list File) :
  forall s r s',
    for_files_with w y files s = (r, s') ->
    exists evs,
      trace s' = trace s ++ evs
      /\ (accepting y -> staging_faults evs = [] -> incl (dirs s') (dirs s)).
Proof.
  induction files as [|file rest IH]; intros s r s' Hrun;
    cbn [for_files_with] in Hrun.
  - injection Hrun as _ <-. exists []. rewrite app_nil_r.
    split; [reflexivity|]. intros _ _. apply incl_refl.
  - apply bind_inv in Hrun as [(v & s1 & Hfile & Hrun)|(m & Hfile & _)].
    + apply processFile_keeps in Hfile as (evs1 & T1 & K1).
      apply IH in Hrun as (evs2 & T2 & K2).
      exists (evs1 ++ evs2). split; [rewrite T2, T1, app_assoc; reflexivity|].
      intros Acc Hs. rewrite staging_faults_app in Hs.
      apply app_eq_nil in Hs as [Hs1 Hs2].
      intros x Hx. apply (K1 Acc Hs1), (K2 Acc Hs2), Hx.
    + apply processFile_keeps in Hfile as (evs1 & T1 & K1). eauto.
Qed.

End AnyConsumer.

Lemma forward_quiet : quiet forward.
Proof.
  intros f s r s'. unfold forward, bind, write, log, get_summaries,
    set_summaries, ret.
  destruct (startsWith (js "Summary for") f); intros [= <- <-];
    cbn [dirs trace]; (split; [reflexivity|]); exists [f]; reflexivity.
Qed.

Lemma forward_accepting : accepting forward.
Proof.
  intros f s. unfold forward, bind, write, log, get_summaries, set_summaries,
    ret.
  destruct (startsWith (js "Summary for") f); eauto.
Qed.

Lemma forward_to_quiet (rejects : nat -> option jsstring) :
  quiet (forward_to rejects).
Proof.
  intros f s r s'. unfold forward_to, write_to, bind, write, log,
    get_summaries, set_summaries, ret.
  destruct (rejects (List.length (trace s))).
  - intros [= <- <-]. split; [reflexivity|]. exists [].
    rewrite app_nil_r. reflexivity.
  - destruct (startsWith (js "Summary for") f); intros [= <- <-];
      cbn [dirs trace]; (split; [reflexivity|]); exists [f]; reflexivity.
Qed.

(** The loop of the route is the loop for any consumer, taken at the
    consumer that always writes. *)
Lemma for_files_is_with (w : World) (files : list File) :
  for_files w files = for_files_with w forward files.
Proof.
  induction files as [|file rest IH]; [reflexivity|].
  cbn [for_files for_files_with]. rewrite IH. reflexivity.
Qed.

(** X1: for any consumer of the fragments, which may throw as the body of
    the [for await] does when [writer.write] rejects.  Once the loader has
    been called, that is once the [try] block was entered, [fs.rm] is
    called on the staging directory exactly once and as the last event of
    the file, whatever rejected after that, the consumer included; when
    that [fs.rm] resolves the directory is gone.  When the staging write
    resolved and the loader was never called, the consumer rejected the
    [Processing] fragment, which is yielded before the [try]: [fs.rm] is
    not called and the directory is still there. *)
Theorem staging_removed_once_loaded (w : World) (y : jsstring -> M unit)
    (file : File) (s : State) r s' evs :
  quiet y ->
  processFile w file y s = (r, s') ->
  trace s' = trace s ++ evs ->
  (forall lpath o,
     In (Ext (Load lpath) o) evs ->
     exists prefix tempDir before o',
       evs = before ++ [Ext (Rm tempDir) o']
       /\ In (Ext (Mkdtemp prefix) (Text tempDir)) before
       /\ removals evs = [tempDir]
       /\ (o' = Done -> ~ In tempDir (dirs s')))
  /\ (forall path,
        In (Ext (WriteFile path) Done) evs ->
        (forall lpath o, ~ In (Ext (Load lpath) o) evs) ->
        removals evs = []
        /\ ~ accepting y
        /\ exists prefix tempDir,
             In (Ext (Mkdtemp prefix) (Text tempDir)) evs
             /\ In tempDir (dirs s')).
Proof.
  intros Q Hrun Ht.
  destruct (processFile_staging w y Q _ _ _ _ Hrun) as (evs' & T & Shape).
  rewrite T in Ht. apply app_inv_head in Ht. subst evs'.
  destruct Shape
    as [(m & -> & D)
       |[(prefix & m & -> & D)
        |[(prefix & d & path & m & -> & D)
         |[(prefix & d & path & ws & -> & D & NAcc)
          |(prefix & d & path & ws & lpath & o & body & o' & -> & R & _ & End)]]]].
  - split.
    + intros lp o [H|[]]. discriminate H.
    + intros p [H|[]]. discriminate H.
  - split.
    + intros lp o [H|[H|[]]]; discriminate H.
    + intros p [H|[H|[]]]; discriminate H.
  - split.
    + intros lp o [H|[H|[H|[]]]]; discriminate H.
    + intros p [H|[H|[H|[]]]]; discriminate H.
  - destruct (wrote_silent ws) as (Rw & _ & Nw). split.
    + intros lp o H. apply in_app_or in H as [[H|[H|[H|[]]]]|H];
        try discriminate H. destruct (Nw _ _ H).
    + intros p _ _. rewrite removals_app, Rw. split; [reflexivity|].
      split; [exact NAcc|]. exists prefix, d.
      split; [right; left; reflexivity|]. rewrite D. left. reflexivity.
  - destruct (wrote_silent ws) as (Rw & _ & Nw). split.
    + intros _ _ _. exists prefix, d.
      exists ([Ext (ArrayBuffer (name file)) Done; Ext (Mkdtemp prefix) (Text d);
               Ext (WriteFile path) Done]
                ++ map Wrote ws ++ Ext (Load lpath) o :: body), o'.
      split; [repeat (rewrite <- app_assoc; cbn [app]); reflexivity|].
      split; [right; left; reflexivity|]. split.
      * change (Ext (Load lpath) o :: body ++ [Ext (Rm d) o'])
          with ([Ext (Load lpath) o] ++ body ++ [Ext (Rm d) o']).
        rewrite !removals_app, Rw, R. reflexivity.
      * intros ->. destruct End as [(_ & ->)|(m & Hm & _)]; [|discriminate Hm].
        apply remove_In.
    + intros p _ Hno. exfalso. apply (Hno lpath o).
      apply in_or_app. right. apply in_or_app. right. left. reflexivity.
Qed.

Lemma staging_removed_once_loaded_witness :
  let hangup : nat -> option jsstring :=
    fun n => if Nat.eqb n 7 then Some (js "stream closed") else None in
  let run := processFile (world never (pages 3)) (pdf "a.pdf")
               (forward_to hangup) (init []) in
  writes (trace (snd run)) = [processing (js "a.pdf")]
  /\ removals (trace (snd run)) = [js "/tmp/pdf-upload-1"]
  /\ ~ In (js "/tmp/pdf-upload-1") (dirs (snd run)).
Proof.
  cbv zeta.
  set (hangup := fun n => if Nat.eqb n 7 then Some (js "stream closed") else None).
  set (run := processFile (world never (pages 3)) (pdf "a.pdf")
                (forward_to hangup) (init [])).
  destruct (staging_removed_once_loaded (world never (pages 3))
              (forward_to hangup) (pdf "a.pdf") (init [])
              (fst run) (snd run) (trace (snd run))
              (forward_to_quiet hangup) (surjective_pairing _) eq_refl)
    as [Loaded _].
  destruct (Loaded (js "/tmp/pdf-upload-1/a.pdf") (Docs (pages 3)))
    as (prefix & tempDir & before & o' & E & _ & HR & Gone).
  { vm_compute. do 4 right. left. reflexivity. }
  assert (W : writes (trace (snd run)) = [processing (js "a.pdf")])
    by (vm_compute; reflexivity).
  assert (HR' : removals (trace (snd run)) = [js "/tmp/pdf-upload-1"])
    by (vm_compute; reflexivity).
  assert (L : last (trace (snd run)) Opened
              = Ext (Rm (js "/tmp/pdf-upload-1")) Done)
    by (vm_compute; reflexivity).
  rewrite E, last_last in L. injection L as -> ->.
  split; [exact W|]. split; [exact HR'|]. apply Gone. reflexivity.
Defined.

(** X2: for the loop over the files with any consumer that accepts every
    fragment.  When no [fs.writeFile] and no [fs.rm] rejects, every staging
    directory that exists after the loop existed before it, whatever else
    rejected: the loop leaves none of its own behind. *)
Theorem staging_cleaned_after_files (w : World) (y : jsstring -> M unit)
    (files : list File) (s : State) r s' evs :
  quiet y ->
  accepting y ->
  for_files_with w y files s = (r, s') ->
  trace s' = trace s ++ evs ->
  staging_faults evs = [] ->
  incl (dirs s') (dirs s).
Proof.
  intros Q Acc Hrun Ht Hs.
  destruct (for_files_with_keeps w y Q files _ _ _ Hrun) as (evs' & T & K).
  rewrite T in Ht. apply app_inv_head in Ht. subst evs'.
  apply (K Acc Hs).
Qed.

Lemma staging_cleaned_after_files_witness :
  let run := for_files_with (world (once 6 "quota exceeded") (pages 3)) forward
               [pdf "a.pdf"; pdf "b.pdf"] (init [js "/tmp/other"]) in
  staging_faults (trace (snd run)) = []
  /\ faults (trace (snd run)) = [js "quota exceeded"]
  /\ incl (dirs (snd run)) [js "/tmp/other"].
Proof.
  cbv zeta.
  set (run := for_files_with (world (once 6 "quota exceeded") (pages 3)) forward
                [pdf "a.pdf"; pdf "b.pdf"] (init [js "/tmp/other"])).
  assert (H : staging_faults (trace (snd run)) = []) by (vm_compute; reflexivity).
  split; [exact H|]. split; [vm_compute; reflexivity|].
  apply (staging_cleaned_after_files
           (world (once 6 "quota exceeded") (pages 3)) forward
           [pdf "a.pdf"; pdf "b.pdf"] (init [js "/tmp/other"])
           (fst run) (snd run) (trace (snd run))
           forward_quiet forward_accepting (surjective_pairing _) eq_refl H).
Defined.

(** The other way to leave a staging directory behind: the writer rejects
    the [Processing] fragment of a file whose staging write resolved. *)
Lemma rejected_processing_write_leaves_directory :
  let hangup : nat -> option jsstring :=
    fun n => if Nat.eqb n 3 then Some (js "stream closed") else None in
  let run := processFile (world never (pages 3)) (pdf "a.pdf")
               (forward_to hangup) (init []) in
  In (Ext (WriteFile (js "/tmp/pdf-upload-1/a.pdf")) Done) (trace (snd run))
  /\ fst run = Throw (js "stream closed")
  /\ removals (trace (snd run)) = []
  /\ dirs (snd run) = [js "/tmp/pdf-upload-1"].
Proof.
  cbv zeta. vm_compute.
  split; [do 2 right; left; reflexivity|]. repeat split; reflexivity.
Qed.

End Staging.
